(** * Fiscal receipt lifecycle of remnawave-tg-shop (Ferma OFD integration)

    Shallow embedding of
    - [bot/services/ferma_webhook_service.py]  (webhook ingest),
    - [bot/services/fiscalization_service.py]  (orchestrator, fallback poll),
    - [bot/services/ferma_ofd_service.py]      (token cache, [_post_json]),
    - [db/repositories/receipts_repo.py]       (receipt store operations).

    Modelling conventions.
    - Python values decoded from JSON are [json] (no floating-point numbers).
      [JNull] plays the role of Python [None].
    - The receipts table is a [list receipt]; [.scalars().first()] is the
      first matching row; an ORM object [pr] is its row index, and a
      [mark_*] call replaces that row (the write is flushed at once and is
      seen by every later session, as the spec's Receipt Store states).
    - Exceptions that escape a handler are the outcome [Raised]. *)

From stdpp Require Import base list strings.
From Stdlib Require Import ZArith Ascii String Lia.
Import ListNotations.
Open Scope Z_scope.
Set Warnings "-register-all".

(* ------------------------------------------------------------------ *)
(** ** Python values and helpers *)

Inductive json : Type :=
| JNull
| JBool (b : bool)
| JInt (z : Z)
| JStr (s : string)
| JArr (l : list json)
| JObj (kv : list (string * json)).

(** Python truthiness ([bool(v)]). *)
Definition truthy (v : json) : bool :=
  match v with
  | JNull => false
  | JBool b => b
  | JInt z => negb (Z.eqb z 0)
  | JStr s => negb (String.eqb s EmptyString)
  | JArr l => negb (Nat.eqb (List.length l) 0)
  | JObj kv => negb (Nat.eqb (List.length kv) 0)
  end.

(** [d.get(k)] on a decoded JSON object; [json.loads] keeps the last of
    duplicated keys. *)
Definition obj_get (kv : list (string * json)) (k : string) : json :=
  fold_left (fun acc '(k', v) => if String.eqb k' k then v else acc) kv JNull.

(** [_get(data, *keys, default=None)]. *)
Fixpoint py_get_path (cur : json) (keys : list string) (default : json) : json :=
  match keys with
  | [] => match cur with JNull => default | _ => cur end
  | k :: ks =>
      match cur with
      | JObj kv => py_get_path (obj_get kv k) ks default
      | _ => default
      end
  end.

(** [str.isspace] on ASCII characters. *)
Definition py_isspace (c : ascii) : bool :=
  let n := nat_of_ascii c in
  (Nat.leb 9 n && Nat.leb n 13) || (Nat.leb 28 n && Nat.leb n 32).

Fixpoint lstrip_l (l : list ascii) : list ascii :=
  match l with
  | c :: r => if py_isspace c then lstrip_l r else l
  | [] => []
  end.

Definition strip_l (l : list ascii) : list ascii :=
  rev (lstrip_l (rev (lstrip_l l))).

(** [s.strip()] *)
Definition py_strip (s : string) : string :=
  string_of_list_ascii (strip_l (list_ascii_of_string s)).

Definition ascii_upper (c : ascii) : ascii :=
  let n := nat_of_ascii c in
  if Nat.leb 97 n && Nat.leb n 122 then ascii_of_nat (n - 32) else c.

(** [s.upper()] on ASCII. *)
Definition py_upper (s : string) : string :=
  string_of_list_ascii (map ascii_upper (list_ascii_of_string s)).

Definition digit_val (c : ascii) : option Z :=
  let n := nat_of_ascii c in
  if Nat.leb 48 n && Nat.leb n 57 then Some (Z.of_nat n - 48) else None.

(** Digits of an integer literal; single underscores between digits are
    allowed, as [int()] accepts them. [prev] says the previous character
    was a digit. *)
Fixpoint parse_digits (l : list ascii) (acc : Z) (prev : bool) : option Z :=
  match l with
  | [] => if prev then Some acc else None
  | c :: r =>
      match digit_val c with
      | Some d => parse_digits r (acc * 10 + d) true
      | None =>
          if prev && Ascii.eqb c "_"%char then parse_digits r acc false else None
      end
  end.

(** [int(s)] for a [str] argument (ASCII digits): surrounding whitespace
    is ignored, an optional sign, then the digits. [None] is the
    [ValueError]. *)
Definition py_int_of_str (s : string) : option Z :=
  match strip_l (list_ascii_of_string s) with
  | c :: r =>
      if Ascii.eqb c "+"%char then parse_digits r 0 false
      else if Ascii.eqb c "-"%char then option_map Z.opp (parse_digits r 0 false)
      else parse_digits (c :: r) 0 false
  | [] => None
  end.

(* ------------------------------------------------------------------ *)
(** ** [_as_int_status] (ferma_webhook_service.py) *)

Definition status_alias (s : string) : option Z :=
  if String.eqb s "CONFIRMED" then Some 2
  else if String.eqb s "PROCESSED" then Some 1
  else if String.eqb s "KKT_ERROR" then Some 3
  else if String.eqb s "NEW" then Some 0
  else None.

(** [int(v)] succeeds on ints, bools and integer strings; on a list or a
    dict it raises [TypeError], and [str(v)] is then a bracketed repr
    that is neither an alias nor an integer literal. *)
Definition as_int_status (v : json) : option Z :=
  match v with
  | JNull => None
  | JInt z => Some z
  | JBool b => Some (if b then 1 else 0)
  | JStr s =>
      match py_int_of_str s with
      | Some z => Some z
      | None =>
          let u := py_upper (py_strip s) in
          match status_alias u with
          | Some z => Some z
          | None => py_int_of_str u
          end
      end
  | JArr _ | JObj _ => None
  end.

(* ------------------------------------------------------------------ *)
(** ** Receipt store (db/repositories/receipts_repo.py) *)

Inductive receipt_status : Type :=
| NEW | SENT | PROCESSED | CONFIRMED | KKT_ERROR | FAILED | DUPLICATE.

Definition status_eqb (a b : receipt_status) : bool :=
  match a, b with
  | NEW, NEW | SENT, SENT | PROCESSED, PROCESSED | CONFIRMED, CONFIRMED
  | KKT_ERROR, KKT_ERROR | FAILED, FAILED | DUPLICATE, DUPLICATE => true
  | _, _ => false
  end.

(** Text stored in [last_error]: [str(payload)[:4000]] of a JSON value,
    or the message of an exception. *)
Inductive error_text : Type :=
| ErrPayload (j : json)
| ErrMessage (m : string).

(** A [PaymentReceipt] row. [ofd_receipt_url] holds the Python value
    written into the column ([JNull] for NULL). *)
Record receipt : Type := mkReceipt {
  payment_id : string;
  invoice_id : string;
  receipt_id : option string;
  amount : Z;
  description : string;
  customer_email : option string;
  customer_phone : option string;
  status : receipt_status;
  ofd_receipt_url : json;
  last_error : option error_text
}.

Abbreviation store := (list receipt).

Fixpoint find_index (p : receipt -> bool) (st : store) : option nat :=
  match st with
  | [] => None
  | r :: rest => if p r then Some 0%nat else option_map S (find_index p rest)
  end.

Definition get_by_payment_id (st : store) (pid : string) : option nat :=
  find_index (fun r => String.eqb (payment_id r) pid) st.

(** Decimal digits of a non-negative integer, most significant first. *)
Fixpoint dec_digits (fuel : nat) (n : Z) (acc : list ascii) : list ascii :=
  match fuel with
  | O => acc
  | S f =>
      let acc' := ascii_of_nat (48 + Z.to_nat (n mod 10)) :: acc in
      if Z.ltb n 10 then acc' else dec_digits f (n / 10) acc'
  end.

(** The text form of a 64-bit integer. *)
Definition z_to_dec (z : Z) : string :=
  string_of_list_ascii
    (if Z.ltb z 0 then "-"%char :: dec_digits 64 (- z) [] else dec_digits 64 z []).

(** A bound value as the text column compares it: SQL NULL, or a text. *)
Inductive db_key : Type :=
| KNull
| KText (s : string).

(** How the query parameter of [Column == value] is bound by the default
    driver ([DATABASE_URL] defaults to [sqlite+aiosqlite] in
    db/receipts/db.py): [None] makes the comparison [IS NULL]; a [str] is
    compared as it is; an [int] (a [bool] is the int 0 or 1) must fit in
    64 bits and, compared with a text column, takes its text form; a list
    or a dict cannot be bound. [None] is the exception the driver raises. *)
Definition db_bind (v : json) : option db_key :=
  match v with
  | JNull => Some KNull
  | JBool b => Some (KText (if b then "1" else "0"))
  | JInt z =>
      if Z.leb (- 2 ^ 63) z && Z.ltb z (2 ^ 63) then Some (KText (z_to_dec z)) else None
  | JStr s => Some (KText s)
  | JArr _ | JObj _ => None
  end.

Definition db_bind_fails (v : json) : bool :=
  match db_bind v with None => true | Some _ => false end.

(** [get_by_invoice_id(invoice_id)]: the first row whose [invoice_id]
    equals the bound value ([invoice_id] is never NULL). When [db_bind]
    fails the query raises instead of returning; the callers test
    [db_bind] for that, and the result here is then [None]. *)
Definition get_by_invoice_id (st : store) (inv : json) : option nat :=
  match db_bind inv with
  | Some (KText s) => find_index (fun r => String.eqb (invoice_id r) s) st
  | _ => None
  end.

(** [get_by_receipt_id(receipt_id)], likewise; [IS NULL] finds the first
    row with no receipt id. *)
Definition get_by_receipt_id (st : store) (rid : json) : option nat :=
  match db_bind rid with
  | Some (KText s) => find_index (fun r => match receipt_id r with
                                           | Some x => String.eqb x s
                                           | None => false
                                           end) st
  | Some KNull => find_index (fun r => match receipt_id r with
                                        | Some _ => false
                                        | None => true
                                        end) st
  | None => None
  end.

Definition with_status (r : receipt) (s : receipt_status) : receipt :=
  mkReceipt (payment_id r) (invoice_id r) (receipt_id r) (amount r)
    (description r) (customer_email r) (customer_phone r) s
    (ofd_receipt_url r) (last_error r).

(** [create_new]: a fresh row in status NEW. *)
Definition create_new (st : store) (pid inv : string) (amt : Z) (descr : string)
    (email phone : option string) : store * nat :=
  (st ++ [mkReceipt pid inv None amt descr email phone NEW JNull None],
   List.length st).

(** [mark_sent(pr, receipt_id, new_invoice_id)] *)
Definition mark_sent (st : store) (i : nat) (rid : option string)
    (new_inv : option string) : store :=
  match st !! i with
  | Some r =>
      let inv := match new_inv with
                 | Some x => if String.eqb x EmptyString then invoice_id r else x
                 | None => invoice_id r
                 end in
      <[i := mkReceipt (payment_id r) inv rid (amount r) (description r)
               (customer_email r) (customer_phone r) SENT
               (ofd_receipt_url r) (last_error r)]> st
  | None => st
  end.

(** [mark_confirmed(pr, ofd_url)] *)
Definition mark_confirmed (st : store) (i : nat) (url : json) : store :=
  match st !! i with
  | Some r =>
      <[i := mkReceipt (payment_id r) (invoice_id r) (receipt_id r) (amount r)
               (description r) (customer_email r) (customer_phone r) CONFIRMED
               url None]> st
  | None => st
  end.

(** [mark_processed(pr)] *)
Definition mark_processed (st : store) (i : nat) : store :=
  match st !! i with
  | Some r => <[i := with_status r PROCESSED]> st
  | None => st
  end.

(** [mark_failed(pr, error)] *)
Definition mark_failed (st : store) (i : nat) (e : error_text) : store :=
  match st !! i with
  | Some r =>
      <[i := mkReceipt (payment_id r) (invoice_id r) (receipt_id r) (amount r)
               (description r) (customer_email r) (customer_phone r) FAILED
               (ofd_receipt_url r) (Some e)]> st
  | None => st
  end.

(** [mark_kkt_error(pr, error)] *)
Definition mark_kkt_error (st : store) (i : nat) (e : error_text) : store :=
  match st !! i with
  | Some r =>
      <[i := mkReceipt (payment_id r) (invoice_id r) (receipt_id r) (amount r)
               (description r) (customer_email r) (customer_phone r) KKT_ERROR
               (ofd_receipt_url r) (Some e)]> st
  | None => st
  end.

(** [mark_duplicate(pr)] *)
Definition mark_duplicate (st : store) (i : nat) : store :=
  match st !! i with
  | Some r => <[i := with_status r DUPLICATE]> st
  | None => st
  end.

Definition is_terminal (s : receipt_status) : bool :=
  match s with CONFIRMED | KKT_ERROR => true | _ => false end.

(* ------------------------------------------------------------------ *)
(** ** Webhook ingest (ferma_webhook_service.py) *)

(** An address of [ipaddress.ip_address]: its version and its value. *)
Record ip_addr : Type := mkIp { ip_v6 : bool; ip_val : Z }.

(** A network of [ipaddress.ip_network] (strict: host bits are zero). *)
Record ip_network : Type := mkNet { net_v6 : bool; net_addr : Z; net_prefix : Z }.

Definition ip_bits (v6 : bool) : Z := if v6 then 128 else 32.

(** [ip in net] *)
Definition ip_in (ip : ip_addr) (n : ip_network) : bool :=
  Bool.eqb (ip_v6 ip) (net_v6 n) &&
  Z.eqb (Z.shiftr (ip_val ip) (ip_bits (net_v6 n) - net_prefix n))
        (Z.shiftr (net_addr n) (ip_bits (net_v6 n) - net_prefix n)).

(** [transport.get_extra_info("peername")]: none, or a host that
    [ip_address] parses ([Some]) or rejects ([None]). *)
Inductive peer_info : Type :=
| NoPeer
| PeerHost (h : option ip_addr).

(** [_ip_allowed(request, cidrs)] *)
Definition ip_allowed (peer : peer_info) (cidrs : list ip_network) : bool :=
  match cidrs with
  | [] => true
  | _ =>
      match peer with
      | NoPeer => false
      | PeerHost None => false
      | PeerHost (Some ip) => existsb (ip_in ip) cidrs
      end
  end.

(** A webhook request: the peer and the body, [None] when [request.json()]
    fails. *)
Record request : Type := mkRequest { rq_peer : peer_info; rq_body : option json }.

(** The JSON responses of [ferma_callback]. *)
Inductive wresp : Type :=
| RForbidden                              (* 403 {"error": "forbidden"} *)
| RInvalidJson                            (* 400 {"error": "invalid_json"} *)
| RMissingIds                             (* 400 {"error": "missing_invoice_and_receipt"} *)
| RIgnored (reason : string)              (* 200 {"ok": true, "ignored": true, ...} *)
| RDone (branch : string) (code : Z).     (* 200 diagnostic body *)

Definition http_status (r : wresp) : Z :=
  match r with
  | RForbidden => 403
  | RInvalidJson | RMissingIds => 400
  | RIgnored _ | RDone _ _ => 200
  end.

Inductive outcome : Type :=
| Answer (r : wresp) (st : store)
| Raised.

(** The fields the handler extracts from the payload. *)
Definition wh_status_raw (p : json) : json :=
  py_get_path p ["Data"; "StatusCode"] (py_get_path p ["StatusCode"] JNull).
Definition wh_invoice (p : json) : json :=
  py_get_path p ["Data"; "InvoiceId"] (py_get_path p ["InvoiceId"] JNull).
Definition wh_receipt (p : json) : json :=
  py_get_path p ["Data"; "ReceiptId"] (py_get_path p ["ReceiptId"] JNull).
Definition wh_device (p : json) : json :=
  let d := py_get_path p ["Data"; "Device"] (py_get_path p ["Device"] (JObj [])) in
  if truthy d then d else JObj [].

(** [device.get("OfdReceiptUrl")]: [None] is the [AttributeError] raised
    when [device] is not a dict. *)
Definition device_url (device : json) : option json :=
  match device with
  | JObj kv => Some (obj_get kv "OfdReceiptUrl")
  | _ => None
  end.

(** Steps 1) and 2) of the handler: by invoice_id, then by receipt_id.
    The receipt_id query runs inside [try/except Exception: pr = None],
    so a value the driver cannot bind finds no row there; the invoice_id
    query is not guarded (see [ferma_callback]). *)
Definition wh_resolve (st : store) (inv rid : json) : option nat :=
  let pr := if truthy inv then get_by_invoice_id st inv else None in
  match pr with
  | Some i => Some i
  | None => if truthy rid then get_by_receipt_id st rid else None
  end.

(** The status dispatch on a resolved row [i]. *)
Definition wh_apply (st : store) (i : nat) (payload : json)
    (code : option Z) (url : json) : wresp * store :=
  match code with
  | None => (RIgnored "unknown_status", st)
  | Some c =>
      if Z.eqb c 2 then (RDone "confirmed" c, mark_confirmed st i url)
      else if Z.eqb c 1 then (RDone "processed" c, mark_processed st i)
      else if Z.eqb c 3 then (RDone "kkt_error" c, mark_kkt_error st i (ErrPayload payload))
      else (RDone "status_other" c, st)
  end.

(** [ferma_callback(request)] with the trusted networks [cidrs] and the
    receipts table [st]. The user notification after CONFIRMED is wrapped
    in [try/except] and touches no receipt, so it is not modelled. The
    invoice_id query (line 143) is outside any [try]: a truthy InvoiceId
    the driver cannot bind makes it raise. *)
Definition ferma_callback (cidrs : list ip_network) (rq : request) (st : store) : outcome :=
  if negb (ip_allowed (rq_peer rq) cidrs) then Answer RForbidden st else
  match rq_body rq with
  | None => Answer RInvalidJson st
  | Some payload =>
      let raw := wh_status_raw payload in
      let inv := wh_invoice payload in
      let rid := wh_receipt payload in
      match device_url (wh_device payload) with
      | None => Raised
      | Some url =>
          let code := as_int_status raw in
          if negb (truthy inv) && negb (truthy rid) then Answer RMissingIds st else
          if truthy inv && db_bind_fails inv then Raised else
          match wh_resolve st inv rid with
          | None => Answer (RIgnored "unknown_invoice") st
          | Some i => let '(r, st') := wh_apply st i payload code url in Answer r st'
          end
      end
  end.

(* ------------------------------------------------------------------ *)
(** ** Ferma client: token cache and [_post_json] (ferma_ofd_service.py) *)

(** What one call of [_auth] gets from the server: a token and its
    expiry (UTC microseconds, [_parse_ferma_utc] already applied), a
    rejection ([FermaError(r.status, data)]), or a transport exception. *)
Inductive auth_reply : Type :=
| AuthOk (token : option string) (expiry : Z)
| AuthRejected (http : Z) (data : json)
| AuthExn.

(** What one [sess.post] gets: a status and the [_safe_json] body, or a
    connection/timeout exception raised by aiohttp. *)
Inductive http_reply : Type :=
| HResp (http : Z) (data : json)
| HConnError.

Inductive client_event : Type :=
| EvAuth
| EvPost (auth_param : option string)
| EvSleep (ms : Z).

(** The client's fields ([_token], [_token_expiry]), the [params] dict
    of the running [_post_json], and the calls made so far. *)
Record cstate : Type := mkCState {
  cs_token : option string;
  cs_expiry : option Z;
  cs_param : option string;
  cs_trace : list client_event
}.

(** Ways a client call ends: a value, [FermaError(status, payload)], or
    another exception. *)
Inductive cres (A : Type) : Type :=
| COk (a : A)
| CFerma (http : Z) (data : json)
| CExn.
Arguments COk {A} a.
Arguments CFerma {A} http data.
Arguments CExn {A}.

Section Client.
(** The servers: the [n]-th auth reply and the [n]-th post reply, and the
    wall clock. *)
Variable auth_srv : nat -> auth_reply.
Variable post_srv : nat -> http_reply.
Variable now : Z.

Definition count_auth (tr : list client_event) : nat :=
  List.length (List.filter (fun e => match e with EvAuth => true | _ => false end) tr).
Definition count_post (tr : list client_event) : nat :=
  List.length (List.filter (fun e => match e with EvPost _ => true | _ => false end) tr).

Definition CM (A : Type) : Type := cstate -> cres A * cstate.

Definition cret {A} (a : A) : CM A := fun s => (COk a, s).
Definition cbind {A B} (m : CM A) (k : A -> CM B) : CM B :=
  fun s => match m s with
           | (COk a, s') => k a s'
           | (CFerma h d, s') => (CFerma h d, s')
           | (CExn, s') => (CExn, s')
           end.
Definition cfail {A} (h : Z) (d : json) : CM A := fun s => (CFerma h d, s).

Notation "x <-- m ;; k" := (cbind m (fun x => k)) (at level 95, m at next level, right associativity).
Notation "m ;;; k" := (cbind m (fun _ => k)) (at level 95, right associativity).

Definition emit (e : client_event) : CM unit :=
  fun s => (COk tt, mkCState (cs_token s) (cs_expiry s) (cs_param s) (cs_trace s ++ [e])).

(** [_auth()] *)
Definition auth : CM unit :=
  fun s =>
    let n := count_auth (cs_trace s) in
    let s1 := mkCState (cs_token s) (cs_expiry s) (cs_param s) (cs_trace s ++ [EvAuth]) in
    match auth_srv n with
    | AuthOk tok exp => (COk tt, mkCState tok (Some exp) (cs_param s1) (cs_trace s1))
    | AuthRejected h d => (CFerma h d, s1)
    | AuthExn => (CExn, s1)
    end.

Definition str_truthy (o : option string) : bool :=
  match o with Some t => negb (String.eqb t EmptyString) | None => false end.

(** The guard of [_ensure_token]: a token, an expiry, and more than 60
    seconds ([total_seconds() > 60]) of validity left. *)
Definition token_fresh (s : cstate) : bool :=
  str_truthy (cs_token s) &&
  match cs_expiry s with
  | Some e => Z.ltb 60000000 (e - now)
  | None => false
  end.

(** [_ensure_token()] *)
Definition ensure_token : CM unit :=
  fun s => if token_fresh s then (COk tt, s) else auth s.

(** One [sess.post(url, params=params, ...)]. *)
Definition do_post : CM (Z * json) :=
  fun s =>
    let n := count_post (cs_trace s) in
    let s1 := mkCState (cs_token s) (cs_expiry s) (cs_param s)
                (cs_trace s ++ [EvPost (cs_param s)]) in
    match post_srv n with
    | HResp h d => (COk (h, d), s1)
    | HConnError => (CExn, s1)
    end.

Definition auth_refresh_failed_body : json :=
  JObj [("Status", JStr "Failed");
        ("Error", JObj [("Message", JStr "Auth refresh failed")])].

(** [_once(with_refresh)] *)
Definition once (with_refresh : bool) : CM (Z * json) :=
  if with_refresh then
    fun s =>
      let s0 := mkCState None None (cs_param s) (cs_trace s) in
      match auth s0 with
      | (COk _, s1) =>
          let s2 := if str_truthy (cs_token s1)
                    then mkCState (cs_token s1) (cs_expiry s1) (cs_token s1) (cs_trace s1)
                    else s1 in
          do_post s2
      | (_, s1) => (COk (401, auth_refresh_failed_body), s1)
      end
  else do_post.

Definition is_2xx (h : Z) : bool := Z.leb 200 h && Z.ltb h 300.

Definition is_transient (h : Z) : bool :=
  existsb (Z.eqb h) [429; 500; 502; 503; 504].

(** The in-body "not authenticated" error:
    [data.get("Status") == "Failed"] and [str(data["Error"].get("Code")) == "1001"]. *)
Definition is_unauth_body (d : json) : bool :=
  match d with
  | JObj kv =>
      match obj_get kv "Status", obj_get kv "Error" with
      | JStr st, JObj e =>
          String.eqb st "Failed" &&
          match obj_get e "Code" with
          | JInt 1001 => true
          | JStr c => String.eqb c "1001"
          | _ => false
          end
      | _, _ => false
      end
  | _ => false
  end.

Definition sleep (ms : Z) : CM unit := emit (EvSleep ms).

Definition loop_exit_body : json :=
  JObj [("Status", JStr "Failed");
        ("Error", JObj [("Message", JStr "Unexpected retry loop exit")])].

(** The [for i in range(1, attempts + 1)] loop; [fuel] is the number of
    iterations left and [backoff] is in milliseconds. *)
Fixpoint post_loop (fuel : nat) (i attempts backoff : Z) (use_token : bool) : CM json :=
  match fuel with
  | O => cfail 599 loop_exit_body
  | S f =>
      r <-- once false ;;
      let '(h, d) := r in
      if is_2xx h && negb (is_unauth_body d) then cret d else
      let h' := if is_2xx h then 401 else h in
      if Z.eqb h' 401 && use_token then
        r2 <-- once true ;;
        let '(h2, d2) := r2 in
        if is_2xx h2 then cret d2 else cfail h2 d2
      else if is_transient h' then
        if Z.eqb i attempts then cfail h' d
        else sleep backoff ;;; post_loop f (i + 1) attempts (backoff * 2) use_token
      else cfail h' d
  end.

(** [_post_json(path, json_body, use_token=...)], backoff 0.6 s. *)
Definition post_json (use_token : bool) : CM json :=
  (if use_token then
     ensure_token ;;;
     (fun s => (COk tt, if str_truthy (cs_token s)
                        then mkCState (cs_token s) (cs_expiry s) (cs_token s) (cs_trace s)
                        else s))
   else cret tt) ;;;
  post_loop 5 1 5 600 use_token.

End Client.

(** [data = (resp or {}).get("Data") or {}]; [None] is the
    [AttributeError] of a truthy non-dict reply. *)
Definition status_data (resp : json) : option json :=
  if truthy resp then
    match resp with
    | JObj kv => let d := obj_get kv "Data" in Some (if truthy d then d else JObj [])
    | _ => None
    end
  else Some (JObj []).

(** [check_status(invoice_id=..., receipt_id=...)]: the [ValueError]
    without an id, then [_post_json("/api/kkt/cloud/status", ...,
    use_token=True)]. *)
Definition check_status auth_srv post_srv now
    (invoice_id receipt_id : option string) : CM json :=
  if negb (str_truthy invoice_id) && negb (str_truthy receipt_id) then
    fun s => (CExn, s)
  else
    cbind (post_json auth_srv post_srv now true)
      (fun resp s => match status_data resp with
                     | Some d => (COk d, s)
                     | None => (CExn, s)
                     end).

(* ------------------------------------------------------------------ *)
(** ** Orchestrator: [fiscalize_on_yookassa_succeeded] (fiscalization_service.py) *)

(** The fields the orchestrator reads from the YooKassa payload, after its
    own normalisation: [obj.get("status")], [_as_str(obj.get("id"))], the
    parsed amount, the truncated description and the buyer contacts. *)
Record yk_event : Type := mkEvent {
  ev_status : json;
  ev_id : option string;
  ev_amount : Z;
  ev_description : string;
  ev_email : option string;
  ev_phone : option string
}.

(** Modelled from the spec: [FermaClient.send_income_receipt], called by
    the orchestrator but absent from ferma_ofd_service.py. The spec's
    [submitReceipt(request)] returns [{remoteReceiptId, remoteInvoiceId}]
    or fails with a service error; any other exception is the third case. *)
Inductive submit_reply : Type :=
| SubOk (receipt : option string) (invoice : option string)
| SubFerma (message : string)
| SubExn (message : string).

Inductive orch_result : Type :=
| OSkipped                                         (* not_succeeded *)
| OMissingId                                       (* missing_payment_id *)
| ODuplicate (s : receipt_status)                  (* duplicate: existing result *)
| OSent (receipt : option string) (invoice : string)
| OSendFailed (message : string)                   (* ferma_send_failed *)
| OUnexpected (message : string).                  (* unexpected_send_error *)

(** The orchestrator's observable effects: the table, the invoice ids
    sent to [send_income_receipt] so far (one per outbound submission),
    and the invoice id of the spawned fallback task, if any. *)
Record orch_state : Type := mkOrch {
  os_store : store;
  os_submissions : list string;
  os_spawned : list string
}.

Definition short_circuit (s : receipt_status) : bool :=
  match s with SENT | PROCESSED | CONFIRMED => true | _ => false end.

Definition is_succeeded (j : json) : bool :=
  match j with JStr s => String.eqb s "succeeded" | _ => false end.

Definition row_invoice (st : store) (i : nat) (dflt : string) : string :=
  match st !! i with Some r => invoice_id r | None => dflt end.

Definition row_status (st : store) (i : nat) : option receipt_status :=
  match st !! i with Some r => Some (status r) | None => None end.

Section Orchestrator.
(** The reply to the [n]-th submission. *)
Variable submit_srv : nat -> submit_reply.

(** Step 2: [send_income_receipt], then [mark_sent] or [mark_failed]. *)
Definition submit_step (st : store) (i : nat) (inv : string) (os : orch_state)
    : orch_result * orch_state :=
  let subs := os_submissions os ++ [inv] in
  match submit_srv (List.length (os_submissions os)) with
  | SubOk rid finv =>
      let finv' := match finv with
                   | Some x => if String.eqb x EmptyString then inv else x
                   | None => inv
                   end in
      (OSent rid finv', mkOrch (mark_sent st i rid (Some finv')) subs (os_spawned os ++ [inv]))
  | SubFerma m => (OSendFailed m, mkOrch (mark_failed st i (ErrMessage m)) subs (os_spawned os))
  | SubExn m => (OUnexpected m, mkOrch (mark_failed st i (ErrMessage m)) subs (os_spawned os))
  end.

Definition fiscalize (ev : yk_event) (os : orch_state) : orch_result * orch_state :=
  let st := os_store os in
  if negb (is_succeeded (ev_status ev)) then (OSkipped, os) else
  match ev_id ev with
  | None => (OMissingId, os)
  | Some pid =>
      if String.eqb pid EmptyString then (OMissingId, os) else
      let pr := get_by_payment_id st pid in
      match option_bind _ _ (row_status st) pr with
      | Some s => if short_circuit s then (ODuplicate s, os) else
                  let i := default 0%nat pr in
                  submit_step st i (row_invoice st i pid) os
      | None =>
          let '(st1, i) := create_new st pid pid (ev_amount ev) (ev_description ev)
                             (ev_email ev) (ev_phone ev) in
          submit_step st1 i pid os
      end
  end.
End Orchestrator.

(* ------------------------------------------------------------------ *)
(** ** Fallback poll: [_fallback_poll_status] (fiscalization_service.py) *)

(** The timing fields of [FermaConfig]. *)
Record ferma_cfg : Type := mkCfg {
  fallback_delay_sec : Z;
  fallback_retries : Z;
  fallback_interval_sec : Z
}.

(** [int(s.X or d)]: an unset or zero setting takes the default. *)
Definition setting_or (o : option Z) (d : Z) : Z :=
  match o with Some z => if Z.eqb z 0 then d else z | None => d end.

(** The fallback fields of [FermaConfig.from_settings]. *)
Definition cfg_from_settings (delay retries interval : option Z) : ferma_cfg :=
  mkCfg (setting_or delay 180) (setting_or retries 5) (setting_or interval 180).

(** Python's [x == n] for an int [n]: [True == 1] holds, a string never
    equals an int. *)
Definition py_eq_int (j : json) (n : Z) : bool :=
  match j with
  | JInt z => Z.eqb z n
  | JBool b => Z.eqb (if b then 1 else 0) n
  | _ => false
  end.

(** [status_code = data.get("StatusCode")], [ofd_url = (data.get("Device")
    or {}).get("OfdReceiptUrl")]; [None] is the [AttributeError] of a
    non-dict. *)
Definition poll_extract (data : json) : option (json * json) :=
  match data with
  | JObj kv =>
      let dev := obj_get kv "Device" in
      match (if truthy dev then dev else JObj []) with
      | JObj dkv => Some (obj_get kv "StatusCode", obj_get dkv "OfdReceiptUrl")
      | _ => None
      end
  | _ => None
  end.

Inductive poll_event : Type :=
| PSleep (sec : Z)
| PCheck
| PWrite (s : receipt_status).

(** How the task ends: at a [return], by exhausting the [for] loop, or in
    the logging [except Exception] branch. *)
Inductive poll_end : Type :=
| PEAbsent | PETerminal | PEConfirmed | PEKktError | PEExhausted | PEError.

Section Fallback.
(** [chk k]: the [Data] returned by the [k]-th [check_status] call
    ([None] when it raises). [intf k]: the writes of other writers (the
    webhook) that land before the [k]-th iteration loads the row. *)
Variable chk : nat -> option json.
Variable intf : nat -> store -> store.

Fixpoint poll_loop (n k : nat) (inv : string) (interval : Z) (st : store)
    : list poll_event * poll_end * store :=
  match n with
  | O => ([], PEExhausted, st)
  | S m =>
      match chk k with
      | None => ([PCheck], PEError, st)
      | Some data =>
      match poll_extract data with
      | None => ([PCheck], PEError, st)
      | Some (code, url) =>
          let st1 := intf k st in
          match option_bind _ _ (row_status st1) (get_by_invoice_id st1 (JStr inv)) with
          | None => ([PCheck], PEAbsent, st1)
          | Some s =>
              let i := default 0%nat (get_by_invoice_id st1 (JStr inv)) in
              if is_terminal s then ([PCheck], PETerminal, st1)
              else if py_eq_int code 2 then
                ([PCheck; PWrite CONFIRMED], PEConfirmed, mark_confirmed st1 i url)
              else if py_eq_int code 1 then
                let '(tr, e, st2) := poll_loop m (S k) inv interval (mark_processed st1 i) in
                (PCheck :: PWrite PROCESSED :: PSleep interval :: tr, e, st2)
              else if py_eq_int code 3 then
                ([PCheck; PWrite KKT_ERROR], PEKktError,
                 mark_kkt_error st1 i (ErrPayload data))
              else
                let '(tr, e, st2) := poll_loop m (S k) inv interval st1 in
                (PCheck :: PSleep interval :: tr, e, st2)
          end
      end
      end
  end.

(** [_fallback_poll_status(..., invoice_id, cfg)] *)
Definition fallback_poll_status (cfg : ferma_cfg) (inv : string) (st : store)
    : list poll_event * poll_end * store :=
  let '(tr, e, st') :=
    poll_loop (Z.to_nat (Z.max (fallback_retries cfg) 0)) 0 inv
      (fallback_interval_sec cfg) st in
  (PSleep (fallback_delay_sec cfg) :: tr, e, st').
End Fallback.

(* ------------------------------------------------------------------ *)
(** ** [_truncate_label] (fiscalization_service.py) *)

(** The value of [obj.get("description")] from the YooKassa payload: a
    string as its code points, a list, or another value (a number, a
    bool, a dict or [None]) with its truthiness. *)
Inductive label_val : Type :=
| LStr (cps : list Z)
| LList (l : list json)
| LOther (is_truthy : bool).

Definition lv_truthy (v : label_val) : bool :=
  match v with
  | LStr c => negb (Nat.eqb (List.length c) 0)
  | LList l => negb (Nat.eqb (List.length l) 0)
  | LOther b => b
  end.

(** Python's [seq[:limit]]. *)
Definition py_slice_to {A} (l : list A) (limit : Z) : list A :=
  if Z.leb 0 limit then firstn (Z.to_nat limit) l
  else firstn (Z.to_nat (Z.of_nat (List.length l) + limit)) l.

(** The code points of the fallback label (Cyrillic "payment for
    services"). *)
Definition label_fallback : list Z :=
  [1054; 1087; 1083; 1072; 1090; 1072; 32; 1091; 1089; 1083; 1091; 1075].

(** The code points of the prefix of [f"... {payment_id}"] (Cyrillic
    "payment for order "). *)
Definition order_label_prefix : list Z :=
  [1054; 1087; 1083; 1072; 1090; 1072; 32; 1079; 1072; 1082; 1072; 1079; 1072; 32].

(** [_truncate_label(label, limit)]: slicing a number, a bool or a dict
    raises, and the [except] returns the fallback label; a list slices. *)
Definition truncate_label (label : label_val) (limit : Z) : label_val :=
  match (if lv_truthy label then label else LStr label_fallback) with
  | LStr c => LStr (py_slice_to c limit)
  | LList l => LList (py_slice_to l limit)
  | LOther _ => LStr label_fallback
  end.

(** [description = _truncate_label(obj.get("description") or
    f"... {payment_id}")] in [fiscalize_on_yookassa_succeeded]. *)
Definition description_label (descr : label_val) (payment_id : list Z) : label_val :=
  truncate_label (if lv_truthy descr then descr else LStr (order_label_prefix ++ payment_id)) 128.

(* ================================================================== *)
(** * Properties *)

(* ------------------------------------------------------------------ *)
(** ** Store lemmas *)

Ltac mark_other :=
  intros; match goal with
  | |- context [ ?st !! ?i ] => idtac
  end;
  repeat match goal with
  | |- context [ match ?st !! ?i with _ => _ end ] =>
      let E := fresh in destruct (st !! i) eqn:E
  end;
  try (apply list_lookup_insert_ne; congruence); reflexivity.

Lemma mark_confirmed_other (st : store) i url j :
  j <> i -> mark_confirmed st i url !! j = st !! j.
Proof. unfold mark_confirmed. mark_other. Qed.

Lemma mark_processed_other (st : store) i j :
  j <> i -> mark_processed st i !! j = st !! j.
Proof. unfold mark_processed. mark_other. Qed.

Lemma mark_kkt_error_other (st : store) i e j :
  j <> i -> mark_kkt_error st i e !! j = st !! j.
Proof. unfold mark_kkt_error. mark_other. Qed.

Lemma mark_failed_other (st : store) i e j :
  j <> i -> mark_failed st i e !! j = st !! j.
Proof. unfold mark_failed. mark_other. Qed.

Lemma mark_sent_other (st : store) i rid inv j :
  j <> i -> mark_sent st i rid inv !! j = st !! j.
Proof. unfold mark_sent. mark_other. Qed.

Lemma wh_apply_other (st : store) i p c u j :
  j <> i -> (wh_apply st i p c u).2 !! j = st !! j.
Proof.
  intros Hj. unfold wh_apply. destruct c as [c|]; [|reflexivity].
  destruct (Z.eqb c 2); [apply mark_confirmed_other; auto|].
  destruct (Z.eqb c 1); [apply mark_processed_other; auto|].
  destruct (Z.eqb c 3); [apply mark_kkt_error_other; auto|reflexivity].
Qed.

(* ------------------------------------------------------------------ *)
(** ** C1: terminal states and the webhook *)

Definition confirmed_row : receipt :=
  mkReceipt "pay_1" "pay_1" (Some "R1") 10000 "Order pay_1" None None
    CONFIRMED (JStr "https://ofd/1") None.

Definition late_processed_payload : json :=
  JObj [("Data", JObj [("StatusCode", JInt 1); ("InvoiceId", JStr "pay_1")])].

Definition late_processed_request : request :=
  mkRequest NoPeer (Some late_processed_payload).

(** C1 (code_bug). The webhook handler does not re-check the current
    status before writing: a PROCESSED callback (StatusCode 1) that
    arrives for a receipt already CONFIRMED moves it back to PROCESSED.
    ([_fallback_poll_status] does perform this re-check, see
    [poll_never_writes_terminal] below.) *)
Theorem webhook_regresses_confirmed :
  ferma_callback [] late_processed_request [confirmed_row] =
  Answer (RDone "processed" 1) [with_status confirmed_row PROCESSED].
Proof. reflexivity. Qed.

(* ------------------------------------------------------------------ *)
(** ** C2: which row a webhook resolves to *)

Definition row_a : receipt :=
  mkReceipt "pay_a" "inv-A" (Some "R-A") 100 "a" None None SENT JNull None.
Definition row_b : receipt :=
  mkReceipt "pay_b" "inv-B" (Some "R-B") 200 "b" None None SENT JNull None.

(** A callback whose InvoiceId names [row_a] and whose ReceiptId names
    [row_b]. *)
Definition crossed_payload : json :=
  JObj [("Data", JObj [("StatusCode", JInt 1); ("InvoiceId", JStr "inv-A");
                       ("ReceiptId", JStr "R-B")])].

(** C2, counterexample: the ReceiptId resolves to row 1, the handler
    resolves row 0 (the InvoiceId's row) and writes it, leaving row 1. *)
Lemma crossed_ids_resolve_by_invoice :
  get_by_receipt_id [row_a; row_b] (JStr "R-B") = Some 1%nat /\
  wh_resolve [row_a; row_b] (JStr "inv-A") (JStr "R-B") = Some 0%nat /\
  ferma_callback [] (mkRequest NoPeer (Some crossed_payload)) [row_a; row_b] =
  Answer (RDone "processed" 1) [with_status row_a PROCESSED; row_b].
Proof. repeat split; reflexivity. Qed.

(** C2 (amended). The webhook writes at most the row found by
    [invoice_id] when the payload carries a truthy InvoiceId that matches
    a row; otherwise at most the row found by [receipt_id]; and when
    neither matches it answers "ignored" and writes nothing. *)
Theorem webhook_resolves_invoice_first cidrs rq st payload r st' :
  rq_body rq = Some payload ->
  ferma_callback cidrs rq st = Answer r st' ->
  (forall i, truthy (wh_invoice payload) = true ->
     get_by_invoice_id st (wh_invoice payload) = Some i ->
     forall j, j <> i -> st' !! j = st !! j) /\
  (forall i, (truthy (wh_invoice payload) = false \/
              get_by_invoice_id st (wh_invoice payload) = None) ->
     truthy (wh_receipt payload) = true ->
     get_by_receipt_id st (wh_receipt payload) = Some i ->
     forall j, j <> i -> st' !! j = st !! j) /\
  ((truthy (wh_invoice payload) = false \/
    get_by_invoice_id st (wh_invoice payload) = None) ->
   (truthy (wh_receipt payload) = false \/
    get_by_receipt_id st (wh_receipt payload) = None) ->
   st' = st /\ (r = RForbidden \/ r = RMissingIds \/ r = RIgnored "unknown_invoice")).
Proof.
  intros Hb Hc. unfold ferma_callback in Hc. rewrite Hb in Hc.
  destruct (negb (ip_allowed (rq_peer rq) cidrs)).
  { injection Hc as <- <-. repeat split; auto. }
  destruct (device_url (wh_device payload)) as [url|]; [|discriminate].
  destruct (negb (truthy (wh_invoice payload)) && negb (truthy (wh_receipt payload))).
  { injection Hc as <- <-. repeat split; auto. }
  destruct (truthy (wh_invoice payload) && db_bind_fails (wh_invoice payload));
    [discriminate|].
  destruct (wh_resolve st (wh_invoice payload) (wh_receipt payload)) as [k|] eqn:Hr.
  - destruct (wh_apply st k payload (as_int_status (wh_status_raw payload)) url)
      as [r0 st0] eqn:Ha.
    injection Hc as <- <-.
    assert (Hoth : forall j, j <> k -> st0 !! j = st !! j).
    { intros j Hj. change st0 with (r0, st0).2. rewrite <- Ha.
      apply wh_apply_other; auto. }
    unfold wh_resolve in Hr.
    refine (conj _ (conj _ _)).
    + intros i Hi Hg. rewrite Hi, Hg in Hr. injection Hr as <-. exact Hoth.
    + intros i Hn Hi Hg. destruct Hn as [Hn|Hn].
      * rewrite Hn in Hr. rewrite Hi, Hg in Hr. injection Hr as <-. exact Hoth.
      * destruct (truthy (wh_invoice payload)); rewrite ?Hn in Hr;
          rewrite Hi, Hg in Hr; injection Hr as <-; exact Hoth.
    + intros Hn Hm. exfalso.
      destruct Hn as [Hn|Hn];
        [rewrite Hn in Hr | destruct (truthy (wh_invoice payload)); rewrite ?Hn in Hr];
        (destruct Hm as [Hm|Hm]; [rewrite Hm in Hr; discriminate
                                 | destruct (truthy (wh_receipt payload));
                                   rewrite ?Hm in Hr; discriminate]).
  - injection Hc as <- <-.
    refine (conj _ (conj _ _)).
    + intros i Hi Hg. unfold wh_resolve in Hr. rewrite Hi, Hg in Hr. discriminate.
    + intros i Hn Hi Hg. unfold wh_resolve in Hr. rewrite Hi, Hg in Hr.
      destruct Hn as [Hn|Hn]; [rewrite Hn in Hr; discriminate|].
      destruct (truthy (wh_invoice payload)); rewrite ?Hn in Hr; discriminate.
    + auto.
Qed.

(** A concrete run of [webhook_resolves_invoice_first] on the crossed
    payload: only row 0 may change. *)
Lemma webhook_resolves_invoice_first_witness :
  [with_status row_a PROCESSED; row_b] !! 1%nat = [row_a; row_b] !! 1%nat.
Proof.
  refine (proj1 (webhook_resolves_invoice_first [] (mkRequest NoPeer (Some crossed_payload))
     [row_a; row_b] crossed_payload (RDone "processed" 1)
     [with_status row_a PROCESSED; row_b] eq_refl eq_refl) 0%nat eq_refl eq_refl 1%nat _).
  lia.
Defined.

(* ------------------------------------------------------------------ *)
(** ** C3: orchestrator idempotency *)

Lemma find_index_lookup p (st : store) i :
  find_index p st = Some i -> exists r, st !! i = Some r /\ p r = true.
Proof.
  revert i. induction st as [|r0 st IH]; intros i H; simpl in H; [discriminate|].
  destruct (p r0) eqn:Hp.
  - injection H as <-. exists r0. auto.
  - destruct (find_index p st) as [k|] eqn:Hk; simpl in H; [|discriminate].
    injection H as <-. apply IH. reflexivity.
Qed.

Lemma find_index_app_none p (st : store) r :
  find_index p st = None -> p r = true ->
  find_index p (st ++ [r]) = Some (List.length st).
Proof.
  induction st as [|r0 st IH]; intros H Hr; simpl in *.
  - rewrite Hr. reflexivity.
  - destruct (p r0); [discriminate|].
    destruct (find_index p st); [discriminate|]. rewrite IH; auto.
Qed.

Lemma find_index_insert_same p (st : store) i r r' :
  st !! i = Some r -> p r' = p r ->
  find_index p (<[i := r']> st) = find_index p st.
Proof.
  revert i. induction st as [|r0 st IH]; intros i Hi Hp; [discriminate|].
  destruct i as [|i]; simpl in *.
  - injection Hi as ->. rewrite Hp. reflexivity.
  - destruct (p r0); [reflexivity|]. f_equal. exact (IH i Hi Hp).
Qed.

Lemma mark_sent_payment_id (st : store) i rid inv pid :
  get_by_payment_id (mark_sent st i rid inv) pid = get_by_payment_id st pid.
Proof.
  unfold mark_sent. destruct (st !! i) eqn:E; [|reflexivity].
  unfold get_by_payment_id. apply (find_index_insert_same _ _ _ _ _ E). reflexivity.
Qed.

Lemma mark_failed_payment_id (st : store) i e pid :
  get_by_payment_id (mark_failed st i e) pid = get_by_payment_id st pid.
Proof.
  unfold mark_failed. destruct (st !! i) eqn:E; [|reflexivity].
  unfold get_by_payment_id. apply (find_index_insert_same _ _ _ _ _ E). reflexivity.
Qed.

Lemma mark_sent_length (st : store) i rid inv :
  List.length (mark_sent st i rid inv) = List.length st.
Proof. unfold mark_sent. destruct (st !! i); [apply length_insert|reflexivity]. Qed.

Lemma mark_failed_length (st : store) i e :
  List.length (mark_failed st i e) = List.length st.
Proof. unfold mark_failed. destruct (st !! i); [apply length_insert|reflexivity]. Qed.

Lemma mark_sent_status (st : store) i r rid inv :
  st !! i = Some r -> row_status (mark_sent st i rid inv) i = Some SENT.
Proof.
  intros E. unfold row_status, mark_sent. rewrite E.
  rewrite list_lookup_insert_eq; [reflexivity|].
  apply lookup_lt_is_Some_1. eauto.
Qed.

Lemma submit_step_shape srv (st : store) i inv os res os' r pid :
  submit_step srv st i inv os = (res, os') ->
  st !! i = Some r ->
  os_submissions os' = os_submissions os ++ [inv] /\
  List.length (os_store os') = List.length st /\
  get_by_payment_id (os_store os') pid = get_by_payment_id st pid /\
  (forall rid finv, res = OSent rid finv -> row_status (os_store os') i = Some SENT).
Proof.
  intros H E. unfold submit_step in H.
  destruct (srv (List.length (os_submissions os))) as [rid finv|m|m];
    injection H as <- <-; simpl.
  - repeat split; [apply mark_sent_length | apply mark_sent_payment_id |].
    intros. eapply mark_sent_status; eauto.
  - repeat split; [apply mark_failed_length | apply mark_failed_payment_id | discriminate].
  - repeat split; [apply mark_failed_length | apply mark_failed_payment_id | discriminate].
Qed.

(** A row for the payment exists and its status is SENT, PROCESSED or
    CONFIRMED. *)
Definition existing_in_set (st : store) (pid : string) : Prop :=
  exists i r, get_by_payment_id st pid = Some i /\ st !! i = Some r /\
              short_circuit (status r) = true.

Lemma app_one_neq {A} (l : list A) x : l ++ [x] <> l.
Proof. intros H. apply (f_equal (@List.length A)) in H. rewrite length_app in H. simpl in H. lia. Qed.

(** C3. For a payment-succeeded event with a payment id: no new
    submission is made exactly when a row for that payment id is in SENT,
    PROCESSED or CONFIRMED (the existing result is returned and nothing
    changes); otherwise exactly one submission is made. After a successful
    submission a second delivery of the same event makes no submission, so
    two deliveries make one submission in total. A FAILED row is
    resubmitted in place: the table keeps its size and the payment id
    still resolves to the same row. *)
Theorem fiscalize_one_submission srv ev os pid res os' :
  is_succeeded (ev_status ev) = true -> ev_id ev = Some pid -> pid <> EmptyString ->
  fiscalize srv ev os = (res, os') ->
  (os_submissions os' = os_submissions os <-> existing_in_set (os_store os) pid) /\
  (os_submissions os' = os_submissions os \/
   exists inv, os_submissions os' = os_submissions os ++ [inv]) /\
  (existing_in_set (os_store os) pid -> os' = os /\ exists s, res = ODuplicate s) /\
  (forall rid inv, res = OSent rid inv ->
     forall srv2, fiscalize srv2 ev os' = (ODuplicate SENT, os')) /\
  (forall i r, get_by_payment_id (os_store os) pid = Some i ->
     os_store os !! i = Some r -> status r = FAILED ->
     List.length (os_store os') = List.length (os_store os) /\
     get_by_payment_id (os_store os') pid = Some i /\
     exists inv, os_submissions os' = os_submissions os ++ [inv]).
Proof.
  intros Hs Hid Hne H.
  assert (Hpid : String.eqb pid EmptyString = false) by (apply String.eqb_neq; auto).
  (* the second delivery, once the row for [pid] is SENT *)
  assert (Hsecond : forall i, get_by_payment_id (os_store os') pid = Some i ->
            row_status (os_store os') i = Some SENT ->
            forall srv2, fiscalize srv2 ev os' = (ODuplicate SENT, os')).
  { intros i Hg Hr srv2. unfold fiscalize. rewrite Hs, Hid, Hpid. simpl.
    rewrite Hg. simpl. rewrite Hr. reflexivity. }
  unfold fiscalize in H. rewrite Hs, Hid, Hpid in H. simpl in H.
  destruct (get_by_payment_id (os_store os) pid) as [i|] eqn:Hg.
  - destruct (find_index_lookup _ _ _ Hg) as [r [Hr Hp]].
    simpl in H. unfold row_status in H. rewrite Hr in H.
    destruct (short_circuit (status r)) eqn:Hsc.
    + injection H as <- <-.
      assert (Hin : existing_in_set (os_store os) pid) by (exists i, r; auto).
      split; [|split; [|split; [|split]]].
      * split; [intros _; exact Hin | reflexivity].
      * left. reflexivity.
      * intros _. split; [reflexivity | exists (status r); reflexivity].
      * intros rid inv Ho. discriminate.
      * intros i' r' Hg' Hr' Hf. assert (i' = i) as -> by congruence.
        assert (r' = r) as -> by congruence. rewrite Hf in Hsc. discriminate.
    + simpl in H.
      destruct (submit_step_shape srv _ _ _ _ _ _ _ pid H Hr) as [Hsub [Hlen [Hgp Hsent]]].
      assert (Hnot : ~ existing_in_set (os_store os) pid).
      { intros [i' [r' [Hg' [Hr' Hsc']]]]. assert (i' = i) as -> by congruence.
        assert (r' = r) as -> by congruence. congruence. }
      split; [|split; [|split; [|split]]].
      * rewrite Hsub. split; [intros Heq; exfalso; exact (app_one_neq _ _ Heq)|tauto].
      * right. eauto.
      * tauto.
      * intros rid inv Ho. apply (Hsecond i); [congruence|]. eapply Hsent; eauto.
      * intros i' r' Hg' _ _. assert (i' = i) as -> by congruence.
        repeat split; [auto|congruence|eauto].
  - simpl in H.
    set (nr := mkReceipt pid pid None (ev_amount ev) (ev_description ev)
                 (ev_email ev) (ev_phone ev) NEW JNull None) in H.
    assert (Hr : (os_store os ++ [nr]) !! List.length (os_store os) = Some nr).
    { rewrite lookup_app_r; [|lia]. rewrite Nat.sub_diag. reflexivity. }
    assert (Hg1 : get_by_payment_id (os_store os ++ [nr]) pid = Some (List.length (os_store os))).
    { apply find_index_app_none; [exact Hg|]. simpl. apply String.eqb_refl. }
    destruct (submit_step_shape srv _ _ _ _ _ _ _ pid H Hr) as [Hsub [Hlen [Hgp Hsent]]].
    assert (Hnot : ~ existing_in_set (os_store os) pid).
    { intros [i' [r' [Hg' _]]]. congruence. }
    split; [|split; [|split; [|split]]].
    + rewrite Hsub. split; [intros Heq; exfalso; exact (app_one_neq _ _ Heq)|tauto].
    + right. eauto.
    + tauto.
    + intros rid inv Ho. apply (Hsecond (List.length (os_store os))); [congruence|].
      eapply Hsent; eauto.
    + intros i' r' Hg'. discriminate.
Qed.

(** Scenario A's first delivery: no row yet, the service accepts. *)
Definition pay1_event : yk_event :=
  mkEvent (JStr "succeeded") (Some "pay_1") 10000 "Order pay_1" None None.

Definition accept_r1 (n : nat) : submit_reply := SubOk (Some "R1") (Some "pay_1").

Definition pay1_sent_row : receipt :=
  mkReceipt "pay_1" "pay_1" (Some "R1") 10000 "Order pay_1" None None SENT JNull None.

Lemma fiscalize_one_submission_witness :
  fiscalize accept_r1 pay1_event (mkOrch [] [] []) =
    (OSent (Some "R1") "pay_1", mkOrch [pay1_sent_row] ["pay_1"] ["pay_1"]) /\
  fiscalize accept_r1 pay1_event (mkOrch [pay1_sent_row] ["pay_1"] ["pay_1"]) =
    (ODuplicate SENT, mkOrch [pay1_sent_row] ["pay_1"] ["pay_1"]).
Proof.
  split; [reflexivity|].
  refine (proj1 (proj2 (proj2 (proj2
    (fiscalize_one_submission accept_r1 pay1_event (mkOrch [] [] []) "pay_1"
       (OSent (Some "R1") "pay_1") (mkOrch [pay1_sent_row] ["pay_1"] ["pay_1"])
       eq_refl eq_refl _ eq_refl)))) (Some "R1") "pay_1" eq_refl accept_r1).
  discriminate.
Defined.

(* ------------------------------------------------------------------ *)
(** ** Client call counting *)

Lemma count_auth_app l1 l2 : count_auth (l1 ++ l2) = (count_auth l1 + count_auth l2)%nat.
Proof. unfold count_auth. rewrite List.filter_app, length_app. reflexivity. Qed.

Lemma count_post_app l1 l2 : count_post (l1 ++ l2) = (count_post l1 + count_post l2)%nat.
Proof. unfold count_post. rewrite List.filter_app, length_app. reflexivity. Qed.

Lemma count_auth_post l p : count_auth (l ++ [EvPost p]) = count_auth l.
Proof. rewrite count_auth_app. change (count_auth [EvPost p]) with 0%nat. lia. Qed.

Lemma count_post_post l p : count_post (l ++ [EvPost p]) = S (count_post l).
Proof. rewrite count_post_app. change (count_post [EvPost p]) with 1%nat. lia. Qed.

Lemma count_post_auth l : count_post (l ++ [EvAuth]) = count_post l.
Proof. rewrite count_post_app. change (count_post [EvAuth]) with 0%nat. lia. Qed.

Lemma count_post_sleep l ms : count_post (l ++ [EvSleep ms]) = count_post l.
Proof. rewrite count_post_app. change (count_post [EvSleep ms]) with 0%nat. lia. Qed.

(* ------------------------------------------------------------------ *)
(** ** C4: forced re-authentication *)

Definition auth_then_fail (n : nat) : auth_reply :=
  if Nat.eqb n 0 then AuthOk (Some "T1") 4000000000 else AuthExn.

Definition first_401 (n : nat) : http_reply :=
  if Nat.eqb n 0 then HResp 401 JNull else HResp 200 (JObj []).

(** The first request gets 401 and the forced re-authentication fails;
    [_once(with_refresh=True)] then returns 401 without sending the
    request again: one request in total. *)
Lemma refresh_failure_sends_no_retry :
  post_json auth_then_fail first_401 0 true (mkCState None None None []) =
    (CFerma 401 auth_refresh_failed_body,
     mkCState None None (Some "T1") [EvAuth; EvPost (Some "T1"); EvAuth]) /\
  count_post [EvAuth; EvPost (Some "T1"); EvAuth] = 1%nat.
Proof. split; reflexivity. Qed.

(** The forced re-authentication. When an attempt of a token request gets HTTP 401, or a
    2xx whose body carries Error.Code 1001, the client performs exactly
    one forced re-authentication. If it fails, FermaError(401) is raised
    and the request is not sent again. If it succeeds, the request is sent
    exactly once more (with the new token when one was returned); a non-2xx
    reply to it raises FermaError with that reply, any 2xx reply is
    returned (even one whose body carries the 1001 error), a connection
    error propagates, and no further request or authentication follows in
    any case. *)
Theorem unauth_single_refresh auth_srv post_srv fuel i att b s h d :
  post_srv (count_post (cs_trace s)) = HResp h d ->
  (h = 401 \/ (is_2xx h = true /\ is_unauth_body d = true)) ->
  forall res s', post_loop auth_srv post_srv (S fuel) i att b true s = (res, s') ->
  exists tail, cs_trace s' = cs_trace s ++ EvPost (cs_param s) :: tail /\
  match auth_srv (count_auth (cs_trace s)) with
  | AuthOk tok _ =>
      tail = [EvAuth; EvPost (if str_truthy tok then tok else cs_param s)] /\
      match post_srv (S (count_post (cs_trace s))) with
      | HResp h2 d2 =>
          (is_2xx h2 = false -> res = CFerma h2 d2) /\
          (is_2xx h2 = true -> res = COk d2)
      | HConnError => res = CExn
      end
  | _ => tail = [EvAuth] /\ res = CFerma 401 auth_refresh_failed_body
  end.
Proof.
  intros Hp Hh res s' Hrun.
  assert (Hnot : is_2xx h && negb (is_unauth_body d) = false).
  { destruct Hh as [->|[-> ->]]; reflexivity. }
  assert (H401 : (if is_2xx h then 401 else h) = 401).
  { destruct Hh as [->|[-> _]]; reflexivity. }
  destruct s as [tok exp par tr]. simpl in *.
  unfold post_loop in Hrun. fold post_loop in Hrun.
  unfold cbind at 1, once at 1, do_post in Hrun. simpl in Hrun. rewrite Hp in Hrun.
  rewrite Hnot, H401 in Hrun. simpl in Hrun.
  unfold cbind, once in Hrun. simpl in Hrun. unfold auth in Hrun. simpl in Hrun.
  rewrite count_auth_post in Hrun.
  assert (Hc : count_post ((tr ++ [EvPost par]) ++ [EvAuth]) = S (count_post tr)).
  { rewrite count_post_auth, count_post_post. reflexivity. }
  destruct (auth_srv (count_auth tr)) as [atok aexp|ah ad|]; simpl in Hrun.
  - destruct (str_truthy atok) eqn:Ht; simpl in Hrun; rewrite Hc in Hrun;
    destruct (post_srv (S (count_post tr))) as [h2 d2|];
    simpl in Hrun; [destruct (is_2xx h2) eqn:H2; unfold cret, cfail in Hrun| |destruct (is_2xx h2) eqn:H2; unfold cret, cfail in Hrun|];
    injection Hrun as <- <-; simpl; eexists; rewrite <- !app_assoc; split; try reflexivity;
    split; try reflexivity; try split; intros; try discriminate; try reflexivity.
  - injection Hrun as <- <-. simpl. eexists. rewrite <- !app_assoc. split; [reflexivity|]. auto.
  - injection Hrun as <- <-. simpl. eexists. rewrite <- !app_assoc. split; [reflexivity|]. auto.
Qed.

Definition auth_twice (n : nat) : auth_reply :=
  AuthOk (Some (if Nat.eqb n 0 then "T1" else "T2")) 4000000000.

(** The request after [ensure_token] obtained "T1"; the 401 forces "T2". *)
Definition after_ensure : cstate := mkCState (Some "T1") (Some 4000000000) (Some "T1") [EvAuth].

Lemma unauth_single_refresh_witness :
  exists tail,
    cs_trace (snd (post_loop auth_twice first_401 5 1 5 600 true after_ensure)) =
      [EvAuth] ++ EvPost (Some "T1") :: tail /\
    tail = [EvAuth; EvPost (Some "T2")].
Proof.
  destruct (unauth_single_refresh auth_twice first_401 4 1 5 600 after_ensure 401 JNull
              eq_refl (or_introl eq_refl) _ _ (surjective_pairing _)) as [tail [Ht Hm]].
  exists tail. split; [exact Ht|]. simpl in Hm. destruct Hm as [Htl _]. exact Htl.
Defined.

(** A 200 reply whose body is Ferma's "client not authenticated" error. *)
Definition unauth_1001_body : json :=
  JObj [("Status", JStr "Failed"); ("Error", JObj [("Code", JInt 1001)])].

Definition always_1001 (n : nat) : http_reply := HResp 200 unauth_1001_body.

(** C4 (code_bug). The server answers every request with HTTP 200 and
    the body [{"Status": "Failed", "Error": {"Code": 1001}}]. The first
    attempt is taken as a 401 and forces one re-authentication; the
    single retry gets the same failed reply, and [_post_json] returns it
    as a success instead of raising: the retry path tests only
    [200 <= status2 < 300]. *)
Theorem unauth_reply_to_retry_returned :
  is_unauth_body unauth_1001_body = true /\
  post_json auth_twice always_1001 0 true (mkCState None None None []) =
    (COk unauth_1001_body,
     mkCState (Some "T2") (Some 4000000000) (Some "T2")
       [EvAuth; EvPost (Some "T1"); EvAuth; EvPost (Some "T2")]).
Proof. split; reflexivity. Qed.

(* ------------------------------------------------------------------ *)
(** ** C5: transient retries and backoff *)

Definition trace_ext (s : cstate) (l : list client_event) : cstate :=
  mkCState (cs_token s) (cs_expiry s) (cs_param s) (cs_trace s ++ l).

(** The calls of [k] transient attempts: a request, then the backoff
    sleep, starting at [b] milliseconds and doubling. *)
Fixpoint retry_prefix (p : option string) (k : nat) (b : Z) : list client_event :=
  match k with
  | O => []
  | S k' => EvPost p :: EvSleep b :: retry_prefix p k' (b * 2)
  end.

Lemma transient_not_2xx h : is_transient h = true -> is_2xx h = false /\ Z.eqb h 401 = false.
Proof.
  unfold is_transient. simpl. intros H.
  repeat (apply orb_true_iff in H; destruct H as [H|H]); try discriminate;
    apply Z.eqb_eq in H; subst; split; reflexivity.
Qed.

Lemma post_loop_transient_step auth_srv post_srv f i att b ut s h d :
  post_srv (count_post (cs_trace s)) = HResp h d ->
  is_transient h = true -> Z.eqb i att = false ->
  post_loop auth_srv post_srv (S f) i att b ut s =
  post_loop auth_srv post_srv f (i + 1) att (b * 2) ut
    (trace_ext s [EvPost (cs_param s); EvSleep b]).
Proof.
  intros Hp Ht Hi. destruct (transient_not_2xx h Ht) as [H2 H4].
  destruct s as [tok exp par tr]. simpl in *.
  unfold cbind, once, do_post. simpl. rewrite Hp. simpl.
  rewrite H2. simpl. rewrite H4. simpl. rewrite Ht, Hi.
  unfold sleep, emit. simpl. unfold trace_ext. simpl. rewrite <- app_assoc. reflexivity.
Qed.

Lemma post_loop_transient_prefix auth_srv post_srv ut k :
  forall f i att b s,
  (k <= f)%nat -> i + Z.of_nat k <= att ->
  (forall j, (j < k)%nat -> exists h d,
     post_srv (count_post (cs_trace s) + j)%nat = HResp h d /\ is_transient h = true) ->
  post_loop auth_srv post_srv f i att b ut s =
  post_loop auth_srv post_srv (f - k) (i + Z.of_nat k) att (b * 2 ^ Z.of_nat k) ut
    (trace_ext s (retry_prefix (cs_param s) k b)).
Proof.
  induction k as [|k IH]; intros f i att b s Hf Hi Hj.
  - simpl. rewrite Nat.sub_0_r, Z.add_0_r, Z.mul_1_r.
    unfold trace_ext. rewrite app_nil_r. destruct s; reflexivity.
  - destruct f as [|f]; [lia|].
    destruct (Hj 0%nat ltac:(lia)) as [h [d [Hp Ht]]]. rewrite Nat.add_0_r in Hp.
    rewrite (post_loop_transient_step _ _ f i att b ut s h d Hp Ht) by (apply Z.eqb_neq; lia).
    rewrite IH.
    + simpl. unfold trace_ext. simpl. rewrite <- app_assoc. simpl.
      replace (i + 1 + Z.of_nat k) with (i + Z.of_nat (S k)) by lia.
      replace (b * 2 * 2 ^ Z.of_nat k) with (b * 2 ^ Z.of_nat (S k))
        by (rewrite Nat2Z.inj_succ, Z.pow_succ_r by lia; lia).
      reflexivity.
    + lia.
    + lia.
    + intros j Hjk. destruct (Hj (S j) ltac:(lia)) as [h' [d' [Hp' Ht']]].
      exists h', d'. split; [|exact Ht'].
      unfold trace_ext. simpl. rewrite count_post_app.
      change (count_post [EvPost (cs_param s); EvSleep b]) with 1%nat.
      replace (count_post (cs_trace s) + 1 + j)%nat with (count_post (cs_trace s) + S j)%nat by lia.
      exact Hp'.
Qed.

Lemma count_post_retry_prefix p k b : count_post (retry_prefix p k b) = k.
Proof.
  revert b. induction k as [|k IH]; intros b; [reflexivity|].
  simpl retry_prefix. change (EvPost p :: EvSleep b :: retry_prefix p k (b * 2))
    with ([EvPost p; EvSleep b] ++ retry_prefix p k (b * 2)).
  rewrite count_post_app, IH. reflexivity.
Qed.

(** One attempt of the loop, as seen after [k] transient attempts. *)
Lemma post_loop_last_step auth_srv post_srv f i att b ut s :
  post_loop auth_srv post_srv (S f) i att b ut s =
  match post_srv (count_post (cs_trace s)) with
  | HResp h d =>
      if is_2xx h && negb (is_unauth_body d) then (COk d, trace_ext s [EvPost (cs_param s)])
      else if Z.eqb (if is_2xx h then 401 else h) 401 && ut then
        cbind (once auth_srv post_srv true)
          (fun r2 => let '(h2, d2) := r2 in if is_2xx h2 then cret d2 else cfail h2 d2)
          (trace_ext s [EvPost (cs_param s)])
      else if is_transient (if is_2xx h then 401 else h) then
        if Z.eqb i att then (CFerma (if is_2xx h then 401 else h) d, trace_ext s [EvPost (cs_param s)])
        else post_loop auth_srv post_srv f (i + 1) att (b * 2) ut
               (trace_ext s [EvPost (cs_param s); EvSleep b])
      else (CFerma (if is_2xx h then 401 else h) d, trace_ext s [EvPost (cs_param s)])
  | HConnError => (CExn, trace_ext s [EvPost (cs_param s)])
  end.
Proof.
  destruct s as [tok exp par tr]. simpl.
  unfold cbind, do_post, trace_ext. simpl.
  destruct (post_srv (count_post tr)) as [h d|]; [|reflexivity]. simpl.
  destruct (is_2xx h && negb (is_unauth_body d)); [reflexivity|].
  destruct (Z.eqb (if is_2xx h then 401 else h) 401 && ut).
  - reflexivity.
  - destruct (is_transient (if is_2xx h then 401 else h)); [|reflexivity].
    destruct (Z.eqb i att); [reflexivity|].
    unfold sleep, emit. simpl. rewrite <- app_assoc. reflexivity.
Qed.

Definition auth_t1 (n : nat) : auth_reply := AuthOk (Some "T1") 4000000000.

Definition first_501 (n : nat) : http_reply :=
  if Nat.eqb n 0 then HResp 501 JNull else HResp 200 (JObj []).

Definition first_conn_error (n : nat) : http_reply :=
  if Nat.eqb n 0 then HConnError else HResp 200 (JObj []).

(** A 501 (a 5xx outside [429, 500, 502, 503, 504]) and a connection
    error each end the call after the first request, with no retry,
    although the next request would have succeeded. *)
Lemma other_5xx_and_connection_errors_not_retried :
  post_json auth_t1 first_501 0 true (mkCState None None None []) =
    (CFerma 501 JNull, mkCState (Some "T1") (Some 4000000000) (Some "T1")
                         [EvAuth; EvPost (Some "T1")]) /\
  post_json auth_t1 first_conn_error 0 true (mkCState None None None []) =
    (CExn, mkCState (Some "T1") (Some 4000000000) (Some "T1")
             [EvAuth; EvPost (Some "T1")]).
Proof. split; reflexivity. Qed.

(** The transient retries. Statuses 429, 500, 502, 503 and 504 are retried, up to
    5 attempts in total, sleeping 0.6 s before the second attempt and
    twice as long before each next one. After [k <= 4] such failures the
    next reply decides, with no further retry:
    - a 2xx reply without the 1001 error is returned (so 4 transient
      failures then a 200 succeed);
    - a non-2xx status outside that set (other than 401 on a token
      request, which takes the re-authentication path) raises FermaError
      with that status and payload;
    - a fifth failure in the set raises FermaError with its status and
      payload;
    - a connection or timeout exception propagates at once, unretried. *)
Theorem transient_retry_policy auth_srv post_srv ut s k :
  (k <= 4)%nat ->
  (forall j, (j < k)%nat -> exists h d,
     post_srv (count_post (cs_trace s) + j)%nat = HResp h d /\ is_transient h = true) ->
  match post_srv (count_post (cs_trace s) + k)%nat with
  | HResp h d =>
      (is_2xx h = true -> is_unauth_body d = false ->
         post_loop auth_srv post_srv 5 1 5 600 ut s =
         (COk d, trace_ext s (retry_prefix (cs_param s) k 600 ++ [EvPost (cs_param s)]))) /\
      (is_2xx h = false -> is_transient h = false -> (h = 401 -> ut = false) ->
         post_loop auth_srv post_srv 5 1 5 600 ut s =
         (CFerma h d, trace_ext s (retry_prefix (cs_param s) k 600 ++ [EvPost (cs_param s)]))) /\
      (k = 4%nat -> is_transient h = true ->
         post_loop auth_srv post_srv 5 1 5 600 ut s =
         (CFerma h d, trace_ext s (retry_prefix (cs_param s) k 600 ++ [EvPost (cs_param s)])))
  | HConnError =>
      post_loop auth_srv post_srv 5 1 5 600 ut s =
      (CExn, trace_ext s (retry_prefix (cs_param s) k 600 ++ [EvPost (cs_param s)]))
  end.
Proof.
  intros Hk Hj.
  rewrite (post_loop_transient_prefix auth_srv post_srv ut k 5 1 5 600 s) by (auto; lia).
  replace (5 - k)%nat with (S (4 - k)) by lia.
  rewrite post_loop_last_step.
  unfold trace_ext at 1. simpl cs_trace. rewrite count_post_app, count_post_retry_prefix.
  assert (Htr : forall l, trace_ext (trace_ext s (retry_prefix (cs_param s) k 600)) l =
                          trace_ext s (retry_prefix (cs_param s) k 600 ++ l)).
  { intros l. unfold trace_ext. simpl. rewrite app_assoc. reflexivity. }
  simpl cs_param.
  destruct (post_srv (count_post (cs_trace s) + k)%nat) as [h d|].
  - split; [|split].
    + intros H2 Hu. rewrite H2, Hu. simpl. rewrite <- Htr. reflexivity.
    + intros H2 Ht H401. rewrite H2. simpl.
      destruct (Z.eqb h 401) eqn:E.
      * apply Z.eqb_eq in E. rewrite (H401 E). simpl. rewrite Ht, <- Htr. reflexivity.
      * simpl. rewrite Ht, <- Htr. reflexivity.
    + intros Hk4 Ht. destruct (transient_not_2xx h Ht) as [H2 H4].
      rewrite H2, H4. simpl. rewrite Ht.
      replace (1 + Z.of_nat k =? 5) with true by (subst k; reflexivity).
      rewrite <- Htr. reflexivity.
  - rewrite <- Htr. reflexivity.
Qed.

(** Four 503 replies, then a 200. *)
Definition four_503 (n : nat) : http_reply :=
  if Nat.ltb n 4 then HResp 503 JNull else HResp 200 (JObj []).

Lemma transient_retry_policy_witness :
  post_loop auth_t1 four_503 5 1 5 600 true after_ensure =
  (COk (JObj []),
   trace_ext after_ensure (retry_prefix (Some "T1") 4 600 ++ [EvPost (Some "T1")])).
Proof.
  pose proof (transient_retry_policy auth_t1 four_503 true after_ensure 4 ltac:(lia)) as H.
  assert (Hp : forall j, (j < 4)%nat -> exists h d,
     four_503 (count_post (cs_trace after_ensure) + j)%nat = HResp h d /\ is_transient h = true).
  { intros j Hj. exists 503, JNull. split; [|reflexivity].
    destruct j as [|[|[|[|j]]]]; [reflexivity..|lia]. }
  specialize (H Hp).
  change (four_503 (count_post (cs_trace after_ensure) + 4)%nat) with (HResp 200 (JObj [])) in H.
  exact (proj1 H eq_refl eq_refl).
Defined.

Definition always_status (h : Z) (n : nat) : http_reply := HResp h JNull.

(** C5 (code_bug). Every request gets the same 5xx status. For 503 the
    client makes 5 attempts with sleeps of 0.6, 1.2, 2.4 and 4.8 s; for
    501, another 5xx status, it raises FermaError(501) after a single
    attempt with no sleep, and a connection error is likewise not retried,
    although the docstring of [_post_json] promises an exponential retry
    on 429/5xx and the comment of the retry branch names timeouts. *)
Theorem status_501_not_retried :
  post_json auth_t1 (always_status 503) 0 true (mkCState None None None []) =
    (CFerma 503 JNull,
     mkCState (Some "T1") (Some 4000000000) (Some "T1")
       [EvAuth; EvPost (Some "T1"); EvSleep 600; EvPost (Some "T1"); EvSleep 1200;
        EvPost (Some "T1"); EvSleep 2400; EvPost (Some "T1"); EvSleep 4800;
        EvPost (Some "T1")]) /\
  post_json auth_t1 (always_status 501) 0 true (mkCState None None None []) =
    (CFerma 501 JNull,
     mkCState (Some "T1") (Some 4000000000) (Some "T1") [EvAuth; EvPost (Some "T1")]) /\
  post_json auth_t1 (fun _ => HConnError) 0 true (mkCState None None None []) =
    (CExn, mkCState (Some "T1") (Some 4000000000) (Some "T1") [EvAuth; EvPost (Some "T1")]).
Proof. split; [|split]; reflexivity. Qed.

(* ------------------------------------------------------------------ *)
(** ** Fallback poll (C6) *)

Section PollSpec.
Variable chk : nat -> option json.
Variable intf : nat -> store -> store.
Variable inv : string.
Variable interval : Z.

(** The reconciliation loop as the specification describes it, one
    constructor per case: [poll_spec n k st tr e st'] says that with [n]
    attempts left, starting at check number [k] on store [st], the loop
    may emit [tr], end by [e] and leave [st']. [intf k st] is the store
    the [k]-th iteration loads from, after the writes of other writers.
    The remote status is mapped by the webhook's rules, that is, after the
    normalization [_as_int_status]. *)
Inductive poll_spec : nat -> nat -> store -> list poll_event -> poll_end -> store -> Prop :=
| PS_exhausted k st :
    poll_spec 0 k st [] PEExhausted st
| PS_check_error n k st :
    match chk k with Some d => poll_extract d = None | None => True end ->
    poll_spec (S n) k st [PCheck] PEError st
| PS_absent n k st d c u :
    chk k = Some d -> poll_extract d = Some (c, u) ->
    get_by_invoice_id (intf k st) (JStr inv) = None ->
    poll_spec (S n) k st [PCheck] PEAbsent (intf k st)
| PS_terminal n k st d c u i r :
    chk k = Some d -> poll_extract d = Some (c, u) ->
    get_by_invoice_id (intf k st) (JStr inv) = Some i ->
    intf k st !! i = Some r -> is_terminal (status r) = true ->
    poll_spec (S n) k st [PCheck] PETerminal (intf k st)
| PS_confirmed n k st d c u i r :
    chk k = Some d -> poll_extract d = Some (c, u) ->
    get_by_invoice_id (intf k st) (JStr inv) = Some i ->
    intf k st !! i = Some r -> is_terminal (status r) = false ->
    as_int_status c = Some 2 ->
    poll_spec (S n) k st [PCheck; PWrite CONFIRMED] PEConfirmed
      (mark_confirmed (intf k st) i u)
| PS_kkt_error n k st d c u i r :
    chk k = Some d -> poll_extract d = Some (c, u) ->
    get_by_invoice_id (intf k st) (JStr inv) = Some i ->
    intf k st !! i = Some r -> is_terminal (status r) = false ->
    as_int_status c = Some 3 ->
    poll_spec (S n) k st [PCheck; PWrite KKT_ERROR] PEKktError
      (mark_kkt_error (intf k st) i (ErrPayload d))
| PS_processed n k st d c u i r tr e st' :
    chk k = Some d -> poll_extract d = Some (c, u) ->
    get_by_invoice_id (intf k st) (JStr inv) = Some i ->
    intf k st !! i = Some r -> is_terminal (status r) = false ->
    as_int_status c = Some 1 ->
    poll_spec n (S k) (mark_processed (intf k st) i) tr e st' ->
    poll_spec (S n) k st (PCheck :: PWrite PROCESSED :: PSleep interval :: tr) e st'
| PS_new_or_unknown n k st d c u i r tr e st' :
    chk k = Some d -> poll_extract d = Some (c, u) ->
    get_by_invoice_id (intf k st) (JStr inv) = Some i ->
    intf k st !! i = Some r -> is_terminal (status r) = false ->
    as_int_status c <> Some 1 -> as_int_status c <> Some 2 -> as_int_status c <> Some 3 ->
    poll_spec n (S k) (intf k st) tr e st' ->
    poll_spec (S n) k st (PCheck :: PSleep interval :: tr) e st'.
End PollSpec.

Definition is_check (ev : poll_event) : bool :=
  match ev with PCheck => true | _ => false end.

Definition count_checks (tr : list poll_event) : nat :=
  List.length (List.filter is_check tr).

Lemma poll_spec_checks chk intf inv interval n k st tr e st' :
  poll_spec chk intf inv interval n k st tr e st' -> (count_checks tr <= n)%nat.
Proof.
  induction 1; unfold count_checks in *; simpl in *; lia.
Qed.

Definition is_jstr (v : json) : bool :=
  match v with JStr _ => true | _ => false end.

(** Off strings, [status_code == n] and [_as_int_status(status_code) == n]
    agree. *)
Lemma py_eq_int_as_int c n :
  is_jstr c = false -> py_eq_int c n = true <-> as_int_status c = Some n.
Proof.
  destruct c as [|b|z|t|l|kv]; cbn [is_jstr py_eq_int as_int_status]; intros H;
    try discriminate; try (split; discriminate).
  - rewrite Z.eqb_eq. split; [intros ->|intros E; injection E]; auto.
  - rewrite Z.eqb_eq. split; [intros ->|intros E; injection E]; auto.
Qed.

Lemma py_eq_int_as_int_false c n :
  is_jstr c = false -> py_eq_int c n = false -> as_int_status c <> Some n.
Proof.
  intros Hs Hf E. apply (py_eq_int_as_int c n Hs) in E. congruence.
Qed.

(** No status check answers with a string [StatusCode]. *)
Definition no_string_codes (chk : nat -> option json) : Prop :=
  forall k d c u, chk k = Some d -> poll_extract d = Some (c, u) -> is_jstr c = false.

Lemma poll_loop_spec chk intf inv interval n :
  no_string_codes chk -> forall k st,
  let '(tr, e, st') := poll_loop chk intf n k inv interval st in
  poll_spec chk intf inv interval n k st tr e st'.
Proof.
  intros Hns.
  induction n as [|n IH]; intros k st; cbn [poll_loop]; [constructor|].
  destruct (chk k) as [d|] eqn:Hc; [|apply PS_check_error; rewrite Hc; exact I].
  destruct (poll_extract d) as [[c u]|] eqn:Hx;
    [|apply PS_check_error; rewrite Hc; exact Hx].
  destruct (get_by_invoice_id (intf k st) (JStr inv)) as [i|] eqn:Hg;
    cbn [option_bind default]; [|eapply PS_absent; eauto].
  destruct (find_index_lookup _ _ _ Hg) as [r [Hr _]].
  unfold row_status, id. rewrite Hr.
  pose proof (Hns k d c u Hc Hx) as Hs.
  destruct (is_terminal (status r)) eqn:Ht; [eapply PS_terminal; eauto|].
  destruct (py_eq_int c 2) eqn:H2;
    [eapply PS_confirmed; eauto; apply (py_eq_int_as_int c 2 Hs); exact H2|].
  destruct (py_eq_int c 1) eqn:H1.
  - specialize (IH (S k) (mark_processed (intf k st) i)).
    destruct (poll_loop chk intf n (S k) inv interval (mark_processed (intf k st) i))
      as [[tr e] st'].
    eapply PS_processed; eauto. apply (py_eq_int_as_int c 1 Hs). exact H1.
  - destruct (py_eq_int c 3) eqn:H3;
      [eapply PS_kkt_error; eauto; apply (py_eq_int_as_int c 3 Hs); exact H3|].
    specialize (IH (S k) (intf k st)).
    destruct (poll_loop chk intf n (S k) inv interval (intf k st)) as [[tr e] st'].
    eapply PS_new_or_unknown; eauto; apply py_eq_int_as_int_false; auto.
Qed.

(** The re-check of [_fallback_poll_status] (lines 175-177): when the row
    it loads is already CONFIRMED or KKT_ERROR, the iteration ends the
    task and leaves the store as the other writers left it. *)
Lemma poll_never_writes_terminal chk intf n k inv interval st d c u i r :
  chk k = Some d -> poll_extract d = Some (c, u) ->
  get_by_invoice_id (intf k st) (JStr inv) = Some i ->
  intf k st !! i = Some r -> is_terminal (status r) = true ->
  poll_loop chk intf (S n) k inv interval st = ([PCheck], PETerminal, intf k st).
Proof.
  intros Hc Hx Hg Hr Ht. cbn [poll_loop]. rewrite Hc, Hx, Hg.
  cbn [option_bind]. unfold row_status. rewrite Hr, Ht. reflexivity.
Qed.

(** Scenario B of the specification: the poll sees PROCESSED three times,
    the webhook confirms the receipt before the fourth check, and the
    fourth iteration sees the CONFIRMED row and stops without a write. *)
Definition sent_row : receipt :=
  mkReceipt "pay_1" "pay_1" (Some "R1") 10000 "Order pay_1" None None
    SENT JNull None.

Definition scenario_b_chk (k : nat) : option json :=
  if Nat.ltb k 3 then Some (JObj [("StatusCode", JInt 1)])
  else Some (JObj [("StatusCode", JInt 2);
                   ("Device", JObj [("OfdReceiptUrl", JStr "https://ofd/1")])]).

Definition scenario_b_webhook (k : nat) (st : store) : store :=
  if Nat.eqb k 3 then mark_confirmed st 0 (JStr "https://ofd/1") else st.

Lemma scenario_b_poll :
  fallback_poll_status scenario_b_chk scenario_b_webhook (cfg_from_settings None None None)
    "pay_1" [sent_row] =
  (PSleep 180 :: PCheck :: PWrite PROCESSED :: PSleep 180
     :: PCheck :: PWrite PROCESSED :: PSleep 180
     :: PCheck :: PWrite PROCESSED :: PSleep 180 :: [PCheck],
   PETerminal,
   mark_confirmed [with_status sent_row PROCESSED] 0 (JStr "https://ofd/1")).
Proof. reflexivity. Qed.

(** When no status check answers with a string [StatusCode],
    [_fallback_poll_status] first sleeps [fallback_delay_sec] (default
    180 s), then runs at most [max(fallback_retries, 0)] (default 5)
    iterations, following [poll_spec] step by step: an absent row or a
    row already CONFIRMED / KKT_ERROR stops the task with no write; a
    remote status code 2 or 3 is written as CONFIRMED or KKT_ERROR and
    stops it; code 1 is written as PROCESSED and the loop goes on; any
    other code writes nothing and the loop goes on; a sleep of
    [fallback_interval_sec] (default 180 s) follows every iteration that
    goes on; running out of iterations ends the task with no further
    action. A [check_status] that raises, or a [Device] that is not an
    object, ends the task in its logging handler. *)
Lemma fallback_poll_matches_spec_int_codes chk intf cfg inv st :
  no_string_codes chk ->
  cfg_from_settings None None None = mkCfg 180 5 180 /\
  let '(tr, e, st') := fallback_poll_status chk intf cfg inv st in
  exists tr',
    tr = PSleep (fallback_delay_sec cfg) :: tr' /\
    poll_spec chk intf inv (fallback_interval_sec cfg)
      (Z.to_nat (Z.max (fallback_retries cfg) 0)) 0 st tr' e st' /\
    (count_checks tr' <= Z.to_nat (Z.max (fallback_retries cfg) 0))%nat.
Proof.
  intros Hns. split; [reflexivity|].
  unfold fallback_poll_status.
  pose proof (poll_loop_spec chk intf inv (fallback_interval_sec cfg)
                (Z.to_nat (Z.max (fallback_retries cfg) 0)) Hns 0 st) as H.
  destruct (poll_loop chk intf (Z.to_nat (Z.max (fallback_retries cfg) 0)) 0 inv
              (fallback_interval_sec cfg) st) as [[tr e] st'].
  exists tr. split; [reflexivity|]. split; [exact H|].
  exact (poll_spec_checks _ _ _ _ _ _ _ _ _ _ H).
Qed.

(** Ferma's status check answering with the code [s] as a string. *)
Definition str_status_chk (s : string) (k : nat) : option json :=
  Some (JObj [("StatusCode", JStr s);
              ("Device", JObj [("OfdReceiptUrl", JStr "https://ofd/1")])]).

Definition no_other_writer (k : nat) (st : store) : store := st.

Lemma str_status_spec_run s :
  as_int_status (JStr s) = Some 2 ->
  forall tr e st',
    poll_spec (str_status_chk s) no_other_writer "pay_1" 180 5 0 [sent_row] tr e st' <->
    tr = [PCheck; PWrite CONFIRMED] /\ e = PEConfirmed /\
    st' = mark_confirmed [sent_row] 0 (JStr "https://ofd/1").
Proof.
  intros H2 tr e st'. split.
  - intros Hp. inversion Hp; subst;
      repeat match goal with
      | H : str_status_chk _ _ = Some _ |- _ => cbv [str_status_chk] in H; injection H as <-
      | H : match str_status_chk _ _ with Some _ => _ | None => _ end |- _ =>
          cbv in H; discriminate H
      | H : poll_extract _ = Some (_, _) |- _ => cbv in H; injection H as <- <-
      | H : get_by_invoice_id _ _ = None |- _ => cbv in H; discriminate H
      | H : get_by_invoice_id _ _ = Some _ |- _ => cbv in H; injection H as <-
      | H : no_other_writer _ _ !! _ = Some _ |- _ => cbv in H; injection H as <-
      | H : is_terminal _ = true |- _ => cbv in H; discriminate H
      end;
      first [congruence | split; [reflexivity | split; reflexivity]].
  - intros [-> [-> ->]].
    change [sent_row] with (no_other_writer 0 [sent_row]) at 2.
    apply (PS_confirmed (str_status_chk s) no_other_writer "pay_1" 180 4 0 [sent_row]
             (JObj [("StatusCode", JStr s);
                    ("Device", JObj [("OfdReceiptUrl", JStr "https://ofd/1")])])
             (JStr s) (JStr "https://ofd/1") 0 sent_row); try reflexivity. exact H2.
Qed.

(** C6 (code_bug). Every status check reports the receipt as confirmed
    with the string code "2" (or the alias "CONFIRMED", or any other
    string [_as_int_status] reads as 2). [_fallback_poll_status] compares
    the raw value with [status_code == 2], which no string satisfies: with
    the default settings it runs all 5 iterations, writes nothing and the
    SENT row stays SENT. With the status mapped as the webhook maps it,
    the only run is one check, the CONFIRMED write, and the end of the
    task. *)
Theorem poll_ignores_string_status s :
  as_int_status (JStr s) = Some 2 ->
  fallback_poll_status (str_status_chk s) no_other_writer (cfg_from_settings None None None)
    "pay_1" [sent_row] =
  ([PSleep 180; PCheck; PSleep 180; PCheck; PSleep 180; PCheck; PSleep 180;
    PCheck; PSleep 180; PCheck; PSleep 180], PEExhausted, [sent_row]) /\
  (forall tr e st',
     poll_spec (str_status_chk s) no_other_writer "pay_1" 180 5 0 [sent_row] tr e st' <->
     tr = [PCheck; PWrite CONFIRMED] /\ e = PEConfirmed /\
     st' = mark_confirmed [sent_row] 0 (JStr "https://ofd/1")).
Proof.
  intros H2. split; [reflexivity|]. exact (str_status_spec_run s H2).
Qed.

Lemma poll_ignores_string_status_witness :
  as_int_status (JStr "CONFIRMED") = Some 2 /\ as_int_status (JStr "2") = Some 2 /\
  fallback_poll_status (str_status_chk "CONFIRMED") no_other_writer
    (cfg_from_settings None None None) "pay_1" [sent_row] =
  ([PSleep 180; PCheck; PSleep 180; PCheck; PSleep 180; PCheck; PSleep 180;
    PCheck; PSleep 180; PCheck; PSleep 180], PEExhausted, [sent_row]).
Proof.
  split; [vm_compute; reflexivity|]. split; [vm_compute; reflexivity|].
  exact (proj1 (poll_ignores_string_status "CONFIRMED" ltac:(vm_compute; reflexivity))).
Defined.

(* ------------------------------------------------------------------ *)
(** ** Status normalization (C7) *)

Lemma forallb_rev_l {A} (f : A -> bool) l : forallb f (rev l) = forallb f l.
Proof.
  induction l as [|x l IH]; simpl; [reflexivity|].
  rewrite forallb_app, IH. simpl. rewrite andb_true_r, andb_comm. reflexivity.
Qed.

Lemma lstrip_spaces w l : forallb py_isspace w = true -> lstrip_l (w ++ l) = lstrip_l l.
Proof.
  induction w as [|c w IH]; simpl; [reflexivity|].
  intros H. apply andb_prop in H as [H1 H2]. rewrite H1. auto.
Qed.

Lemma strip_padded w1 w2 c :
  forallb py_isspace w1 = true -> forallb py_isspace w2 = true ->
  py_isspace c = false -> strip_l (w1 ++ c :: w2) = [c].
Proof.
  intros H1 H2 Hc. unfold strip_l.
  rewrite lstrip_spaces by exact H1. simpl. rewrite Hc. simpl.
  rewrite lstrip_spaces by (rewrite forallb_rev_l; exact H2).
  simpl. rewrite Hc. reflexivity.
Qed.

(** [int(" 2 ")] and the like: an integer literal of one digit with
    whitespace around it. *)
Lemma py_int_padded w1 w2 d z :
  forallb py_isspace w1 = true -> forallb py_isspace w2 = true ->
  py_isspace d = false -> Ascii.eqb d "+"%char = false -> Ascii.eqb d "-"%char = false ->
  parse_digits [d] 0 false = Some z ->
  py_int_of_str (string_of_list_ascii (w1 ++ d :: w2)) = Some z.
Proof.
  intros H1 H2 Hs Hp Hm Hd. unfold py_int_of_str.
  rewrite list_ascii_of_string_of_list_ascii, strip_padded by assumption.
  rewrite Hp, Hm. exact Hd.
Qed.

(** The documented webhook body [{Data: {StatusCode, InvoiceId,
    ReceiptId, Device}}]. *)
Definition wh_payload (code inv rid dev : json) : json :=
  JObj [("Data", JObj [("StatusCode", code); ("InvoiceId", inv);
                       ("ReceiptId", rid); ("Device", dev)])].

Lemma wh_payload_fields v inv rid dev :
  wh_status_raw (wh_payload v inv rid dev) = v /\
  wh_invoice (wh_payload v inv rid dev) = inv /\
  wh_receipt (wh_payload v inv rid dev) = rid /\
  wh_device (wh_payload v inv rid dev) = (if truthy dev then dev else JObj []).
Proof.
  split; [destruct v; reflexivity|].
  split; [destruct inv; reflexivity|].
  split; [destruct rid; reflexivity|].
  destruct dev; reflexivity.
Qed.

Lemma callback_on_payload cidrs peer v inv rid dev st :
  ferma_callback cidrs (mkRequest peer (Some (wh_payload v inv rid dev))) st =
  if negb (ip_allowed peer cidrs) then Answer RForbidden st else
  match device_url (if truthy dev then dev else JObj []) with
  | None => Raised
  | Some url =>
      if negb (truthy inv) && negb (truthy rid) then Answer RMissingIds st else
      if truthy inv && db_bind_fails inv then Raised else
      match wh_resolve st inv rid with
      | None => Answer (RIgnored "unknown_invoice") st
      | Some i =>
          let '(r, st') := wh_apply st i (wh_payload v inv rid dev) (as_int_status v) url in
          Answer r st'
      end
  end.
Proof.
  unfold ferma_callback. cbn [rq_peer rq_body].
  destruct (wh_payload_fields v inv rid dev) as [-> [-> [-> ->]]].
  reflexivity.
Qed.

(** A row up to the error text it records. *)
Definition forget_error (r : receipt) : receipt :=
  mkReceipt (payment_id r) (invoice_id r) (receipt_id r) (amount r)
    (description r) (customer_email r) (customer_phone r) (status r)
    (ofd_receipt_url r) None.

(** Two runs of the handler make the same transition: the same response
    and the same rows, up to the error text (which records the payload). *)
Definition same_transition (o1 o2 : outcome) : Prop :=
  match o1, o2 with
  | Answer r1 s1, Answer r2 s2 => r1 = r2 /\ forget_error <$> s1 = forget_error <$> s2
  | Raised, Raised => True
  | _, _ => False
  end.

Lemma wh_apply_payloads st i p1 p2 c url :
  fst (wh_apply st i p1 c url) = fst (wh_apply st i p2 c url) /\
  forget_error <$> snd (wh_apply st i p1 c url) = forget_error <$> snd (wh_apply st i p2 c url) /\
  (c <> Some 3 -> wh_apply st i p1 c url = wh_apply st i p2 c url).
Proof.
  destruct c as [c|]; [|auto]. unfold wh_apply.
  destruct (Z.eqb c 2); [auto|]. destruct (Z.eqb c 1); [auto|].
  destruct (Z.eqb c 3) eqn:E3; [|auto].
  apply Z.eqb_eq in E3; subst c. split; [reflexivity|]. split; [|congruence].
  simpl. unfold mark_kkt_error. destruct (st !! i); [|reflexivity].
  rewrite !list_fmap_insert. reflexivity.
Qed.

Lemma callback_same_code cidrs peer v1 v2 inv rid dev st :
  as_int_status v1 = as_int_status v2 ->
  same_transition (ferma_callback cidrs (mkRequest peer (Some (wh_payload v1 inv rid dev))) st)
                  (ferma_callback cidrs (mkRequest peer (Some (wh_payload v2 inv rid dev))) st) /\
  (as_int_status v1 <> Some 3 ->
   ferma_callback cidrs (mkRequest peer (Some (wh_payload v1 inv rid dev))) st =
   ferma_callback cidrs (mkRequest peer (Some (wh_payload v2 inv rid dev))) st).
Proof.
  intros Hc. rewrite !callback_on_payload, <- Hc.
  destruct (negb (ip_allowed peer cidrs)); [simpl; auto|].
  destruct (device_url (if truthy dev then dev else JObj [])) as [url|]; [|simpl; auto].
  destruct (negb (truthy inv) && negb (truthy rid)); [simpl; auto|].
  destruct (truthy inv && db_bind_fails inv); [simpl; auto|].
  destruct (wh_resolve st inv rid) as [i|]; [|simpl; auto].
  destruct (wh_apply_payloads st i (wh_payload v1 inv rid dev) (wh_payload v2 inv rid dev)
              (as_int_status v1) url) as [Hf [Hs He]].
  split.
  - destruct (wh_apply st i (wh_payload v1 inv rid dev) (as_int_status v1) url) as [r1 s1].
    destruct (wh_apply st i (wh_payload v2 inv rid dev) (as_int_status v1) url) as [r2 s2].
    simpl in *. auto.
  - intros H3. rewrite (He H3). reflexivity.
Qed.

Lemma callback_unrecognized_code cidrs rq st payload :
  rq_body rq = Some payload ->
  as_int_status (wh_status_raw payload) <> Some 1 ->
  as_int_status (wh_status_raw payload) <> Some 2 ->
  as_int_status (wh_status_raw payload) <> Some 3 ->
  match ferma_callback cidrs rq st with
  | Answer _ st' => st' = st
  | Raised => device_url (wh_device payload) = None \/
              (truthy (wh_invoice payload) = true /\ db_bind_fails (wh_invoice payload) = true)
  end.
Proof.
  intros Hb H1 H2 H3. unfold ferma_callback. rewrite Hb.
  destruct (negb (ip_allowed (rq_peer rq) cidrs)); [reflexivity|].
  destruct (device_url (wh_device payload)) as [url|]; [|left; reflexivity].
  destruct (negb (truthy (wh_invoice payload)) && negb (truthy (wh_receipt payload)));
    [reflexivity|].
  destruct (truthy (wh_invoice payload) && db_bind_fails (wh_invoice payload)) eqn:Hf.
  { right. apply andb_true_iff in Hf. exact Hf. }
  destruct (wh_resolve st (wh_invoice payload) (wh_receipt payload)) as [i|]; [|reflexivity].
  unfold wh_apply.
  destruct (as_int_status (wh_status_raw payload)) as [c|]; [|reflexivity].
  destruct (Z.eqb c 2) eqn:E2; [apply Z.eqb_eq in E2; subst; congruence|].
  destruct (Z.eqb c 1) eqn:E1; [apply Z.eqb_eq in E1; subst; congruence|].
  destruct (Z.eqb c 3) eqn:E3; [apply Z.eqb_eq in E3; subst; congruence|].
  reflexivity.
Qed.

Definition status_families : list (Z * string * ascii) :=
  [(0, "NEW", "0"%char); (1, "PROCESSED", "1"%char);
   (2, "CONFIRMED", "2"%char); (3, "KKT_ERROR", "3"%char)].

(** The three spellings of a status: the integer, its digit with
    whitespace [w1] before and [w2] after, and the alias. *)
Definition status_forms (k : Z) (name : string) (d : ascii) (w1 w2 : list ascii) : list json :=
  [JInt k; JStr (string_of_list_ascii (w1 ++ d :: w2)); JStr name].

(** The spellings of a status. For each family 0/"NEW", 1/"PROCESSED",
    2/"CONFIRMED", 3/"KKT_ERROR", [_as_int_status] maps the integer, the
    digit string with any surrounding whitespace and the alias to the same
    code, and [ferma_callback] on bodies that differ only in that spelling
    makes the same transition: the same response and the same rows (for
    KKT_ERROR the stored error text is [str(payload)], so it records the
    spelling; for the other families the stores are equal). *)
Theorem status_spellings_same_transition k name d w1 w2 cidrs peer inv rid dev st :
  In (k, name, d) status_families ->
  forallb py_isspace w1 = true -> forallb py_isspace w2 = true ->
  (forall v, In v (status_forms k name d w1 w2) -> as_int_status v = Some k) /\
  (forall v1 v2, In v1 (status_forms k name d w1 w2) -> In v2 (status_forms k name d w1 w2) ->
     same_transition
       (ferma_callback cidrs (mkRequest peer (Some (wh_payload v1 inv rid dev))) st)
       (ferma_callback cidrs (mkRequest peer (Some (wh_payload v2 inv rid dev))) st) /\
     (k <> 3 ->
      ferma_callback cidrs (mkRequest peer (Some (wh_payload v1 inv rid dev))) st =
      ferma_callback cidrs (mkRequest peer (Some (wh_payload v2 inv rid dev))) st)).
Proof.
  intros Hf H1 H2.
  assert (Hn : forall v, In v (status_forms k name d w1 w2) -> as_int_status v = Some k).
  { intros v Hv.
    unfold status_families in Hf.
    destruct Hf as [Hf|[Hf|[Hf|[Hf|[]]]]]; injection Hf as <- <- <-;
      destruct Hv as [<-|[<-|[<-|[]]]]; try reflexivity;
      unfold as_int_status; rewrite (py_int_padded w1 w2 _ _ H1 H2) by reflexivity;
      reflexivity. }
  split; [exact Hn|].
  intros v1 v2 Hv1 Hv2.
  assert (Hc : as_int_status v1 = as_int_status v2) by (rewrite (Hn v1 Hv1), (Hn v2 Hv2); reflexivity).
  destruct (callback_same_code cidrs peer v1 v2 inv rid dev st Hc) as [Hs He].
  split; [exact Hs|]. intros Hk. apply He. rewrite (Hn v1 Hv1). congruence.
Qed.

Lemma status_spellings_same_transition_witness :
  In (2, "CONFIRMED", "2"%char) status_families /\
  (forall v, In v (status_forms 2 "CONFIRMED" "2"%char [" "%char] ["009"%char])
             -> as_int_status v = Some 2).
Proof.
  split; [simpl; auto|].
  exact (proj1 (status_spellings_same_transition 2 "CONFIRMED" "2"%char [" "%char] ["009"%char]
                  [] NoPeer (JStr "pay_1") JNull JNull [confirmed_row]
                  ltac:(simpl; auto) eq_refl eq_refl)).
Defined.

(** A webhook body with the unrecognized status "UNKNOWN", for the
    receipt "pay_1", with the given extra fields. *)
Definition unknown_status_body (extra : list (string * json)) : json :=
  JObj (("StatusCode", JStr "UNKNOWN") :: extra).

(** C7 (code_bug). With no allow-list and the SENT row "pay_1", a body
    whose status "UNKNOWN" [_as_int_status] does not recognize is
    answered 200 [unknown_status] with no write when its fields are
    well formed, but the handler raises (an HTTP 500 from aiohttp) when
    [Device] is a non-empty string, and when
    [InvoiceId] is a list: the invoice_id query (line 143) is not in a
    [try], while the receipt_id query is, so a list [ReceiptId] is only
    ignored. *)
Theorem unknown_status_can_raise :
  as_int_status (JStr "UNKNOWN") = None /\
  ferma_callback [] (mkRequest NoPeer (Some (unknown_status_body
      [("InvoiceId", JStr "pay_1")]))) [sent_row] =
    Answer (RIgnored "unknown_status") [sent_row] /\
  ferma_callback [] (mkRequest NoPeer (Some (unknown_status_body
      [("InvoiceId", JStr "pay_1"); ("Device", JStr "x")]))) [sent_row] = Raised /\
  ferma_callback [] (mkRequest NoPeer (Some (unknown_status_body
      [("InvoiceId", JArr [JStr "pay_1"])]))) [sent_row] = Raised /\
  ferma_callback [] (mkRequest NoPeer (Some (unknown_status_body
      [("ReceiptId", JArr [JStr "R1"])]))) [sent_row] =
    Answer (RIgnored "unknown_invoice") [sent_row].
Proof. repeat split; vm_compute; reflexivity. Qed.

(* ------------------------------------------------------------------ *)
(** ** Request guards (C8, C10) *)

(** The first two guards of [ferma_callback]: a peer the allow-list
    rejects gets 403 (an empty allow-list rejects nobody), and a body that
    does not parse gets 400 [invalid_json]; neither touches the store. *)
Lemma webhook_guards cidrs rq st :
  (ip_allowed (rq_peer rq) [] = true) /\
  (ip_allowed (rq_peer rq) cidrs = false -> ferma_callback cidrs rq st = Answer RForbidden st) /\
  (ip_allowed (rq_peer rq) cidrs = true -> rq_body rq = None ->
   ferma_callback cidrs rq st = Answer RInvalidJson st).
Proof.
  split; [reflexivity|]. unfold ferma_callback. split.
  - intros H. rewrite H. reflexivity.
  - intros H Hb. rewrite H, Hb. reflexivity.
Qed.

(** With a [Device] that is an object (or falsy) and no correlation id,
    the handler answers 400 [missing_invoice_and_receipt] and writes
    nothing. *)
Lemma missing_ids_answer cidrs rq st payload :
  ip_allowed (rq_peer rq) cidrs = true -> rq_body rq = Some payload ->
  truthy (wh_invoice payload) = false -> truthy (wh_receipt payload) = false ->
  device_url (wh_device payload) <> None ->
  ferma_callback cidrs rq st = Answer RMissingIds st.
Proof.
  intros Ha Hb Hi Hr Hd. unfold ferma_callback. rewrite Ha, Hb, Hi, Hr.
  destruct (device_url (wh_device payload)); [reflexivity|congruence].
Qed.

Definition unknown_id_string_device : json :=
  JObj [("InvoiceId", JStr "unknown-1"); ("Device", JStr "x")].

(** C8 (code_bug). With no allow-list, a parsed body whose InvoiceId
    matches no receipt but whose [Device] is a non-empty string makes
    [device.get("OfdReceiptUrl")] raise [AttributeError] before the
    lookup, so the request ends in an unhandled exception (an HTTP 500 from
    aiohttp) instead of the 200 ignored answer; the same body with an
    object [Device] does get that answer. *)
Theorem unknown_id_string_device_raises :
  ferma_callback [] (mkRequest NoPeer (Some unknown_id_string_device)) [] = Raised /\
  ferma_callback []
    (mkRequest NoPeer (Some (JObj [("InvoiceId", JStr "unknown-1"); ("Device", JObj [])]))) [] =
  Answer (RIgnored "unknown_invoice") [].
Proof. split; reflexivity. Qed.

Definition no_ids_string_device : json := JObj [("Device", JStr "x")].

(** C10 (code_bug). A parsed body with neither InvoiceId nor ReceiptId
    but with a non-empty string [Device] raises [AttributeError] at
    [device.get("OfdReceiptUrl")] (line 121) before the id check of line
    130, so it is not answered 400 [missing_invoice_and_receipt]; without
    the [Device] field the same body is answered 400 and the store is
    kept. *)
Theorem no_ids_string_device_raises :
  ferma_callback [] (mkRequest NoPeer (Some no_ids_string_device)) [confirmed_row] = Raised /\
  ferma_callback [] (mkRequest NoPeer (Some (JObj []))) [confirmed_row] =
  Answer RMissingIds [confirmed_row].
Proof. split; reflexivity. Qed.

(* ------------------------------------------------------------------ *)
(** ** Token cache (C9) *)

(** C9. [_ensure_token] leaves the client untouched (no request, same
    token) exactly when a non-empty token is cached, an expiry is set and
    more than 60 seconds (60 000 000 microseconds) of validity remain;
    in every other case, including exactly 60 seconds left, it runs the
    whole [_auth()], which sends one authorization request. *)
Theorem ensure_token_refresh_rule auth_srv now s :
  if str_truthy (cs_token s) &&
     match cs_expiry s with Some e => Z.ltb (now + 60000000) e | None => false end
  then ensure_token auth_srv now s = (COk tt, s)
  else ensure_token auth_srv now s = auth auth_srv s /\
       cs_trace (snd (ensure_token auth_srv now s)) = cs_trace s ++ [EvAuth].
Proof.
  unfold ensure_token, token_fresh.
  assert (He : match cs_expiry s with Some e => Z.ltb 60000000 (e - now) | None => false end =
               match cs_expiry s with Some e => Z.ltb (now + 60000000) e | None => false end).
  { destruct (cs_expiry s) as [e|]; [|reflexivity].
    destruct (Z.ltb_spec 60000000 (e - now)); destruct (Z.ltb_spec (now + 60000000) e);
      try reflexivity; lia. }
  rewrite He.
  destruct (str_truthy (cs_token s) &&
            match cs_expiry s with Some e => Z.ltb (now + 60000000) e | None => false end);
    [reflexivity|].
  split; [reflexivity|].
  unfold auth. destruct (auth_srv (count_auth (cs_trace s))); reflexivity.
Qed.

(* ================================================================== *)
(** * Further properties of the receipt code *)

(* ------------------------------------------------------------------ *)
(** ** Receipt store *)

(** The three lookups of [ReceiptsRepo] give the same rows on both stores. *)
Definition lookups_agree (st st' : store) : Prop :=
  forall pid inv rid,
    get_by_payment_id st' pid = get_by_payment_id st pid /\
    get_by_invoice_id st' inv = get_by_invoice_id st inv /\
    get_by_receipt_id st' rid = get_by_receipt_id st rid.

Lemma lookups_agree_insert (st : store) i r r' :
  st !! i = Some r ->
  payment_id r' = payment_id r -> invoice_id r' = invoice_id r ->
  receipt_id r' = receipt_id r ->
  lookups_agree st (<[i := r']> st).
Proof.
  intros Hi Hp Hv Hr pid inv rid. split; [|split].
  - unfold get_by_payment_id. apply (find_index_insert_same _ _ _ _ _ Hi). rewrite Hp. reflexivity.
  - unfold get_by_invoice_id. destruct (db_bind inv) as [[|s]|]; try reflexivity.
    apply (find_index_insert_same _ _ _ _ _ Hi). rewrite Hv. reflexivity.
  - unfold get_by_receipt_id. destruct (db_bind rid) as [[|s]|]; try reflexivity;
      apply (find_index_insert_same _ _ _ _ _ Hi); rewrite Hr; reflexivity.
Qed.

Lemma lookups_agree_refl st : lookups_agree st st.
Proof. intros pid inv rid. auto. Qed.

(** The status writes [mark_confirmed], [mark_processed], [mark_kkt_error],
    [mark_failed] and [mark_duplicate] never change which row any of
    [get_by_payment_id], [get_by_invoice_id] and [get_by_receipt_id]
    returns, and they never add or drop a row. *)
Theorem status_marks_keep_lookups (st : store) i url e :
  Forall (fun st' => lookups_agree st st' /\ List.length st' = List.length st)
    [mark_confirmed st i url; mark_processed st i; mark_kkt_error st i e;
     mark_failed st i e; mark_duplicate st i].
Proof.
  unfold mark_confirmed, mark_processed, mark_kkt_error, mark_failed, mark_duplicate.
  destruct (st !! i) as [r|] eqn:Hi.
  - repeat (apply List.Forall_cons;
            [split; [apply (lookups_agree_insert _ _ _ _ Hi); reflexivity
                    |rewrite length_insert; reflexivity]|]).
    apply List.Forall_nil.
  - repeat (apply List.Forall_cons; [split; [apply lookups_agree_refl|reflexivity]|]).
    apply List.Forall_nil.
Qed.

Lemma find_index_app_one p (st : store) r :
  find_index p (st ++ [r]) =
  match find_index p st with
  | Some i => Some i
  | None => if p r then Some (List.length st) else None
  end.
Proof.
  induction st as [|r0 st IH]; simpl; [destruct (p r); reflexivity|].
  destruct (p r0); [reflexivity|]. rewrite IH.
  destruct (find_index p st); [reflexivity|]. destruct (p r); reflexivity.
Qed.

(** [create_new] then [get_by_payment_id]: when no row has the payment
    id yet, the lookup returns the new row, in status NEW with no
    receipt id and no OFD url; the lookup of every other payment id and
    every earlier row are as before, and the new row is also the one
    found by its invoice id when no earlier row has that invoice id. *)
Theorem create_new_then_lookup (st : store) pid inv amt descr email phone :
  get_by_payment_id st pid = None ->
  let '(st', i) := create_new st pid inv amt descr email phone in
  get_by_payment_id st' pid = Some i /\
  st' !! i = Some (mkReceipt pid inv None amt descr email phone NEW JNull None) /\
  (forall pid', pid' <> pid -> get_by_payment_id st' pid' = get_by_payment_id st pid') /\
  (forall j, (j < List.length st)%nat -> st' !! j = st !! j) /\
  (get_by_invoice_id st (JStr inv) = None -> get_by_invoice_id st' (JStr inv) = Some i).
Proof.
  intros Hn. unfold create_new. split; [|split; [|split; [|split]]].
  - unfold get_by_payment_id in *. rewrite find_index_app_one, Hn. simpl.
    rewrite String.eqb_refl. reflexivity.
  - rewrite lookup_app_r by lia. rewrite Nat.sub_diag. reflexivity.
  - intros pid' Hne. unfold get_by_payment_id. rewrite find_index_app_one.
    destruct (find_index _ st); [reflexivity|]. simpl.
    destruct (String.eqb_spec pid pid'); [congruence|reflexivity].
  - intros j Hj. apply lookup_app_l. exact Hj.
  - unfold get_by_invoice_id, db_bind. intros Hv. rewrite find_index_app_one, Hv. simpl.
    rewrite String.eqb_refl. reflexivity.
Qed.

Lemma create_new_then_lookup_witness :
  get_by_payment_id [confirmed_row] "pay_2" = None /\
  get_by_payment_id (fst (create_new [confirmed_row] "pay_2" "pay_2" 500 "Order pay_2" None None))
    "pay_2" = Some 1%nat.
Proof.
  split; [reflexivity|].
  pose proof (create_new_then_lookup [confirmed_row] "pay_2" "pay_2" 500 "Order pay_2"
                None None eq_refl) as H.
  exact (proj1 H).
Defined.

(* ------------------------------------------------------------------ *)
(** ** Orchestrator and fallback poll *)

Lemma insert_last (st : store) r r' :
  <[List.length st := r']> (st ++ [r]) = st ++ [r'].
Proof. induction st as [|r0 st IH]; simpl; [reflexivity|]. rewrite IH. reflexivity. Qed.

(** When Ferma answers a new payment [pid] with its own invoice id [x]
    (non-empty, different from [pid]), [mark_sent] moves the row to
    invoice id [x], so webhook lookups by [x] find it, but the fallback
    task is spawned with the old invoice id [pid]: with at least one
    retry configured it makes a single status check, finds no row for
    [pid] and ends, writing nothing. *)
Theorem rekeyed_receipt_escapes_poll srv ev os pid rid x chk cfg :
  ev_status ev = JStr "succeeded" -> ev_id ev = Some pid -> pid <> EmptyString ->
  get_by_payment_id (os_store os) pid = None ->
  get_by_invoice_id (os_store os) (JStr pid) = None ->
  get_by_invoice_id (os_store os) (JStr x) = None ->
  srv (List.length (os_submissions os)) = SubOk rid (Some x) ->
  x <> EmptyString -> x <> pid -> 0 < fallback_retries cfg ->
  let '(res, os') := fiscalize srv ev os in
  res = OSent rid x /\
  os_spawned os' = os_spawned os ++ [pid] /\
  get_by_invoice_id (os_store os') (JStr x) = Some (List.length (os_store os)) /\
  fallback_poll_status chk (fun _ st => st) cfg pid (os_store os') =
  ([PSleep (fallback_delay_sec cfg); PCheck],
   match chk 0%nat with
   | Some d => match poll_extract d with Some _ => PEAbsent | None => PEError end
   | None => PEError
   end,
   os_store os').
Proof.
  intros Hs Hid Hpe Hp Hv Hx Hsrv Hxe Hxp Hr.
  destruct os as [st subs sp]. simpl in *.
  unfold fiscalize. simpl. rewrite Hs, Hid. simpl.
  destruct (String.eqb_spec pid EmptyString) as [E|_]; [congruence|].
  rewrite Hp. simpl. unfold submit_step. simpl. rewrite Hsrv.
  destruct (String.eqb_spec x EmptyString) as [E|_]; [congruence|].
  unfold mark_sent. rewrite lookup_app_r by lia. rewrite Nat.sub_diag. simpl.
  destruct (String.eqb_spec x EmptyString) as [E|_]; [congruence|].
  rewrite insert_last.
  set (r' := mkReceipt pid x rid (ev_amount ev) (ev_description ev) (ev_email ev)
               (ev_phone ev) SENT JNull None).
  assert (Hpid : get_by_invoice_id (st ++ [r']) (JStr pid) = None).
  { unfold get_by_invoice_id, db_bind in *. rewrite find_index_app_one, Hv. simpl.
    destruct (String.eqb_spec x pid); [congruence|reflexivity]. }
  split; [reflexivity|]. split; [reflexivity|]. split.
  - unfold get_by_invoice_id, db_bind in *. rewrite find_index_app_one, Hx. simpl.
    rewrite String.eqb_refl. reflexivity.
  - unfold fallback_poll_status.
    destruct (Z.to_nat (Z.max (fallback_retries cfg) 0)) as [|m] eqn:Hm; [lia|].
    cbn [poll_loop].
    destruct (chk 0%nat) as [d|]; [|reflexivity].
    destruct (poll_extract d) as [[c u]|]; [|reflexivity].
    rewrite Hpid. reflexivity.
Qed.

Definition rekey_event : yk_event :=
  mkEvent (JStr "succeeded") (Some "pay_9") 1000 "Order pay_9" None None.

Definition rekey_srv (n : nat) : submit_reply := SubOk (Some "R9") (Some "ferma-uuid-9").

Definition status_new_chk (k : nat) : option json := Some (JObj [("StatusCode", JInt 0)]).

Lemma rekeyed_receipt_escapes_poll_witness :
  let '(res, os') := fiscalize rekey_srv rekey_event (mkOrch [] [] []) in
  res = OSent (Some "R9") "ferma-uuid-9" /\
  os_spawned os' = [] ++ ["pay_9"] /\
  get_by_invoice_id (os_store os') (JStr "ferma-uuid-9") = Some 0%nat /\
  fallback_poll_status status_new_chk (fun _ st => st) (cfg_from_settings None None None)
    "pay_9" (os_store os') =
  ([PSleep 180; PCheck], PEAbsent, os_store os').
Proof.
  exact (rekeyed_receipt_escapes_poll rekey_srv rekey_event (mkOrch [] [] []) "pay_9"
           (Some "R9") "ferma-uuid-9" status_new_chk (cfg_from_settings None None None)
           eq_refl eq_refl ltac:(discriminate) eq_refl eq_refl eq_refl eq_refl
           ltac:(discriminate) ltac:(discriminate) ltac:(reflexivity)).
Defined.

(* ------------------------------------------------------------------ *)
(** ** Fallback settings *)

(** [int(os.getenv(name, dflt))]; [None] is the [ValueError]. *)
Definition env_int (o : option string) (dflt : string) : option Z :=
  py_int_of_str (match o with Some s => s | None => dflt end).

(** The fallback fields of [FermaConfig.from_env_or_defaults]. *)
Definition cfg_from_env (delay retries interval : option string) : option ferma_cfg :=
  match env_int delay "180", env_int retries "5", env_int interval "180" with
  | Some a, Some b, Some c => Some (mkCfg a b c)
  | _, _, _ => None
  end.

(** Iterations of [_fallback_poll_status]: [range(max(retries, 0))]. *)
Definition poll_iterations (cfg : ferma_cfg) : nat :=
  Z.to_nat (Z.max (fallback_retries cfg) 0).

(** With [FermaConfig.from_settings] ([int(x or default)]) the fallback
    poll is switched off only by a negative retry count: a setting of 0
    is read as the default 5, and a delay of 0 as the default 180 s. With
    [from_env_or_defaults] ([int(os.getenv(name, default))]) a value "0"
    is kept, so that configuration never polls, and an empty value makes
    the constructor raise. *)
Theorem poll_iterations_by_config dl r iv :
  (poll_iterations (cfg_from_settings dl r iv) = 0%nat <-> exists z, r = Some z /\ z < 0) /\
  poll_iterations (cfg_from_settings dl (Some 0) iv) = 5%nat /\
  fallback_delay_sec (cfg_from_settings (Some 0) r iv) = 180 /\
  cfg_from_env None None None = Some (mkCfg 180 5 180) /\
  (forall de ie cfg, cfg_from_env de (Some "0") ie = Some cfg -> poll_iterations cfg = 0%nat) /\
  (forall de ie, cfg_from_env de (Some "") ie = None).
Proof.
  split; [|split; [reflexivity|split; [reflexivity|split; [reflexivity|split]]]].
  - unfold poll_iterations, cfg_from_settings, setting_or. simpl.
    destruct r as [z|]; simpl.
    + destruct (Z.eqb_spec z 0) as [->|Hz].
      * split; [discriminate|]. intros [z' [Hz' Hl]]. injection Hz' as <-. lia.
      * split.
        -- intros H. exists z. split; [reflexivity|].
           destruct (Z.max_spec z 0) as [[_ E]|[_ E]]; rewrite E in H; lia.
        -- intros [z' [Hz' Hl]]. injection Hz' as <-.
           rewrite Z.max_r by lia. reflexivity.
    + split; [discriminate|]. intros [z' [Hz' _]]. discriminate.
  - intros de ie cfg H. unfold cfg_from_env in H.
    destruct (env_int de "180"), (env_int ie "180"); try discriminate.
    injection H as <-. reflexivity.
  - intros de ie. unfold cfg_from_env. destruct (env_int de "180"); reflexivity.
Qed.

(* ------------------------------------------------------------------ *)
(** ** Webhook body layouts *)

Lemma callback_same_fields cidrs peer p1 p2 st :
  wh_status_raw p1 = wh_status_raw p2 -> wh_invoice p1 = wh_invoice p2 ->
  wh_receipt p1 = wh_receipt p2 -> wh_device p1 = wh_device p2 ->
  same_transition (ferma_callback cidrs (mkRequest peer (Some p1)) st)
                  (ferma_callback cidrs (mkRequest peer (Some p2)) st).
Proof.
  intros Hs Hi Hr Hd. unfold ferma_callback. cbn [rq_peer rq_body].
  rewrite Hs, Hi, Hr, Hd.
  destruct (negb (ip_allowed peer cidrs)); [simpl; auto|].
  destruct (device_url (wh_device p2)) as [url|]; [|simpl; auto].
  destruct (negb (truthy (wh_invoice p2)) && negb (truthy (wh_receipt p2))); [simpl; auto|].
  destruct (truthy (wh_invoice p2) && db_bind_fails (wh_invoice p2)); [simpl; auto|].
  destruct (wh_resolve st (wh_invoice p2) (wh_receipt p2)) as [i|]; [|simpl; auto].
  destruct (wh_apply_payloads st i p1 p2 (as_int_status (wh_status_raw p2)) url)
    as [Hf [Hst _]].
  destruct (wh_apply st i p1 (as_int_status (wh_status_raw p2)) url) as [r1 s1].
  destruct (wh_apply st i p2 (as_int_status (wh_status_raw p2)) url) as [r2 s2].
  simpl in *. auto.
Qed.

Lemma get_flat_wrapped kv k d :
  String.eqb "Data" k = false ->
  (match obj_get kv "Data" with JObj _ => false | _ => true end) = true ->
  py_get_path (JObj kv) ["Data"; k] (py_get_path (JObj kv) [k] d) =
  py_get_path (JObj [("Data", JObj kv)]) ["Data"; k]
    (py_get_path (JObj [("Data", JObj kv)]) [k] d).
Proof.
  intros Hk Hd. cbn [py_get_path].
  assert (Hw : obj_get [("Data", JObj kv)] "Data" = JObj kv) by reflexivity.
  assert (Hw' : obj_get [("Data", JObj kv)] k = JNull).
  { unfold obj_get. cbn [fold_left]. rewrite Hk. reflexivity. }
  rewrite Hw, Hw'. cbn [py_get_path].
  destruct (obj_get kv "Data"); try discriminate; reflexivity.
Qed.

(** The handler reads the flat body [{StatusCode, InvoiceId, ReceiptId,
    Device}] and the same fields wrapped as [{Data: {...}}] alike: for
    every object whose [Data] entry is absent or not an object, both
    bodies give the same response and the same rows (up to the error
    text, which records the body). *)
Theorem flat_and_wrapped_bodies_agree cidrs peer kv st :
  (match obj_get kv "Data" with JObj _ => false | _ => true end) = true ->
  same_transition
    (ferma_callback cidrs (mkRequest peer (Some (JObj kv))) st)
    (ferma_callback cidrs (mkRequest peer (Some (JObj [("Data", JObj kv)]))) st).
Proof.
  intros Hd. apply callback_same_fields.
  - apply get_flat_wrapped; [reflexivity|exact Hd].
  - apply get_flat_wrapped; [reflexivity|exact Hd].
  - apply get_flat_wrapped; [reflexivity|exact Hd].
  - unfold wh_device. rewrite get_flat_wrapped by (reflexivity || exact Hd). reflexivity.
Qed.

Lemma flat_and_wrapped_bodies_agree_witness :
  (match obj_get [("StatusCode", JInt 2); ("InvoiceId", JStr "pay_1")] "Data"
   with JObj _ => false | _ => true end) = true /\
  same_transition
    (ferma_callback [] (mkRequest NoPeer
       (Some (JObj [("StatusCode", JInt 2); ("InvoiceId", JStr "pay_1")]))) [sent_row])
    (ferma_callback [] (mkRequest NoPeer
       (Some (JObj [("Data", JObj [("StatusCode", JInt 2); ("InvoiceId", JStr "pay_1")])])))
       [sent_row]).
Proof.
  split; [reflexivity|].
  exact (flat_and_wrapped_bodies_agree [] NoPeer
           [("StatusCode", JInt 2); ("InvoiceId", JStr "pay_1")] [sent_row] eq_refl).
Defined.

(* ------------------------------------------------------------------ *)
(** ** Trusted networks ([_trusted_cidrs]) *)

(** [str.split(",")]: the pieces between commas; [""] gives [[""]]. *)
Fixpoint split_comma_l (l : list ascii) : list (list ascii) :=
  match l with
  | [] => [[]]
  | c :: r =>
      let rest := split_comma_l r in
      if Ascii.eqb c ","%char then [] :: rest
      else match rest with
           | p :: ps => (c :: p) :: ps
           | [] => [[c]]
           end
  end.

Definition py_split_comma (s : string) : list string :=
  map string_of_list_ascii (split_comma_l (list_ascii_of_string s)).

Section TrustedCidrs.
(** [ipaddress.ip_network(s)]: the network, or [None] when it raises. *)
Variable parse_net : string -> option ip_network.

(** The networks kept from one comma-separated piece. *)
Definition cidr_part (part : string) : list ip_network :=
  let s := py_strip part in
  if String.eqb s EmptyString then []
  else match parse_net s with Some n => [n] | None => [] end.

(** [_trusted_cidrs()] with [os.getenv("FERMA_TRUSTED_CIDRS", "")]. *)
Definition trusted_cidrs (env : option string) : list ip_network :=
  flat_map cidr_part (py_split_comma (match env with Some s => s | None => EmptyString end)).
End TrustedCidrs.

Lemma flat_map_nil_iff {A B} (f : A -> list B) l :
  flat_map f l = [] <-> Forall (fun x => f x = []) l.
Proof.
  induction l as [|x l IH]; simpl.
  - split; [constructor|reflexivity].
  - split.
    + intros H. apply app_eq_nil in H as [H1 H2]. constructor; [exact H1|apply IH, H2].
    + intros H. inversion H as [|? ? H1 H2]; subst. rewrite H1. apply IH, H2.
Qed.

(** The allow-list built from FERMA_TRUSTED_CIDRS is empty exactly when
    every comma-separated entry is blank or fails to parse as a network,
    and then the handler accepts requests from every peer, even with no
    peer address at all (so a list of mistyped networks silently opens
    the endpoint). When at least one entry parses, a request whose peer
    address is unavailable is answered 403 and the store is kept. *)
Theorem trusted_cidrs_fail_open parse_net env :
  (trusted_cidrs parse_net env = [] <->
   Forall (fun part => py_strip part = EmptyString \/ parse_net (py_strip part) = None)
     (py_split_comma (match env with Some s => s | None => EmptyString end))) /\
  (trusted_cidrs parse_net env = [] ->
   forall rq, ip_allowed (rq_peer rq) (trusted_cidrs parse_net env) = true) /\
  (trusted_cidrs parse_net env <> [] ->
   forall body st,
     ferma_callback (trusted_cidrs parse_net env) (mkRequest NoPeer body) st = Answer RForbidden st).
Proof.
  split; [|split].
  - unfold trusted_cidrs. rewrite flat_map_nil_iff.
    split; intros H; eapply Forall_impl; try exact H; intros part; unfold cidr_part.
    + destruct (String.eqb_spec (py_strip part) EmptyString) as [E|_]; [auto|].
      destruct (parse_net (py_strip part)); [discriminate|auto].
    + intros [E|E].
      * rewrite E. reflexivity.
      * destruct (String.eqb (py_strip part) EmptyString); [reflexivity|]. rewrite E. reflexivity.
  - intros H rq. rewrite H. reflexivity.
  - intros H body st. unfold ferma_callback. simpl.
    destruct (trusted_cidrs parse_net env); [congruence|reflexivity].
Qed.

(* ------------------------------------------------------------------ *)
(** ** Request budget of [_post_json] *)

(** [m] only appends to the trace, at most [p] requests and [a]
    authorizations. *)
Definition budget {A} (m : CM A) (p a : nat) : Prop :=
  forall s r s', m s = (r, s') ->
  exists tail, cs_trace s' = cs_trace s ++ tail /\
               (count_post tail <= p)%nat /\ (count_auth tail <= a)%nat.

Lemma budget_mono {A} (m : CM A) p a p' a' :
  budget m p a -> (p <= p')%nat -> (a <= a')%nat -> budget m p' a'.
Proof.
  intros H Hp Ha s r s' E. destruct (H s r s' E) as [t [Ht [H1 H2]]].
  exists t. split; [exact Ht|lia].
Qed.

Lemma budget_ret {A} (x : A) : budget (cret x) 0 0.
Proof. intros s r s' E. injection E as <- <-. exists []. rewrite app_nil_r. auto. Qed.

Lemma budget_fail {A} h d : budget (@cfail A h d) 0 0.
Proof. intros s r s' E. injection E as <- <-. exists []. rewrite app_nil_r. auto. Qed.

Lemma budget_bind {A B} (m : CM A) (k : A -> CM B) p1 a1 p2 a2 :
  budget m p1 a1 -> (forall x, budget (k x) p2 a2) -> budget (cbind m k) (p1 + p2) (a1 + a2).
Proof.
  intros Hm Hk s r s' E. unfold cbind in E.
  destruct (m s) as [r1 s1] eqn:E1.
  destruct (Hm s r1 s1 E1) as [t1 [Ht1 [P1 A1]]].
  destruct r1 as [x|h d|].
  - destruct (Hk x s1 r s' E) as [t2 [Ht2 [P2 A2]]].
    exists (t1 ++ t2). rewrite Ht2, Ht1, app_assoc.
    rewrite count_post_app, count_auth_app. split; [reflexivity|lia].
  - injection E as <- <-. exists t1. split; [exact Ht1|lia].
  - injection E as <- <-. exists t1. split; [exact Ht1|lia].
Qed.

Lemma budget_sleep b : budget (sleep b) 0 0.
Proof.
  intros s r s' E. injection E as <- <-. exists [EvSleep b]. split; [reflexivity|].
  split; [apply Nat.le_refl|apply Nat.le_refl].
Qed.

Lemma budget_do_post post_srv : budget (do_post post_srv) 1 0.
Proof.
  intros s r s' E. unfold do_post in E.
  exists [EvPost (cs_param s)].
  destruct (post_srv (count_post (cs_trace s))); injection E as <- <-; simpl; auto.
Qed.

Lemma budget_auth auth_srv : budget (auth auth_srv) 0 1.
Proof.
  intros s r s' E. unfold auth in E. exists [EvAuth].
  destruct (auth_srv (count_auth (cs_trace s))); injection E as <- <-; simpl; auto.
Qed.

Lemma budget_once auth_srv post_srv wr :
  budget (once auth_srv post_srv wr) 1 (if wr then 1 else 0).
Proof.
  destruct wr; [|apply budget_do_post].
  intros s r s' E. unfold once in E.
  destruct (auth auth_srv (mkCState None None (cs_param s) (cs_trace s))) as [r1 s1] eqn:Ea.
  destruct (budget_auth auth_srv _ _ _ Ea) as [t1 [Ht1 [P1 A1]]]. simpl in Ht1.
  destruct r1 as [u|h d|].
  - set (s2 := if str_truthy (cs_token s1)
               then mkCState (cs_token s1) (cs_expiry s1) (cs_token s1) (cs_trace s1) else s1) in E.
    assert (Hs2 : cs_trace s2 = cs_trace s1) by (unfold s2; destruct (str_truthy (cs_token s1)); reflexivity).
    destruct (budget_do_post post_srv s2 r s' E) as [t2 [Ht2 [P2 A2]]].
    exists (t1 ++ t2). rewrite Ht2, Hs2, Ht1, app_assoc, count_post_app, count_auth_app.
    split; [reflexivity|lia].
  - injection E as <- <-. exists t1. split; [exact Ht1|lia].
  - injection E as <- <-. exists t1. split; [exact Ht1|lia].
Qed.

Lemma budget_ensure_token auth_srv now : budget (ensure_token auth_srv now) 0 1.
Proof.
  intros s r s' E. unfold ensure_token in E. destruct (token_fresh now s).
  - injection E as <- <-. exists []. rewrite app_nil_r. auto.
  - exact (budget_auth auth_srv s r s' E).
Qed.

Lemma budget_post_loop auth_srv post_srv f : forall i att b ut,
  budget (post_loop auth_srv post_srv f i att b ut) (S f) (if ut then 1 else 0).
Proof.
  induction f as [|f IH]; intros i att b ut; simpl.
  - eapply budget_mono; [apply budget_fail|lia|lia].
  - change (S (S f)) with (1 + S f)%nat.
    replace (if ut then 1%nat else 0%nat) with (0 + if ut then 1%nat else 0%nat)%nat by lia.
    apply budget_bind; [apply (budget_once auth_srv post_srv false)|].
    intros [h d].
    destruct (is_2xx h && negb (is_unauth_body d));
      [eapply budget_mono; [apply budget_ret|lia|lia]|].
    destruct (Z.eqb (if is_2xx h then 401 else h) 401 && ut) eqn:Eu.
    + apply andb_prop in Eu as [_ ->].
      eapply budget_mono.
      * apply budget_bind; [apply (budget_once auth_srv post_srv true)|].
        intros [h2 d2]. destruct (is_2xx h2); [apply budget_ret|apply budget_fail].
      * lia.
      * lia.
    + destruct (is_transient (if is_2xx h then 401 else h));
        [|eapply budget_mono; [apply budget_fail|lia|lia]].
      destruct (Z.eqb i att); [eapply budget_mono; [apply budget_fail|lia|lia]|].
      eapply budget_mono;
        [apply budget_bind; [apply budget_sleep|intros _; apply IH]|lia|lia].
Qed.

(** One [_post_json] call sends at most 6 HTTP requests (5 attempts plus
    the single retry after a forced re-login) and authenticates at most
    twice (the token check before the loop and the forced re-login); a
    call with [use_token=False] never authenticates. It only appends to
    the client's log of calls, whatever the servers answer. *)
Theorem post_json_request_budget auth_srv post_srv now ut s :
  let '(_, s') := post_json auth_srv post_srv now ut s in
  exists tail, cs_trace s' = cs_trace s ++ tail /\
    (count_post tail <= 6)%nat /\ (count_auth tail <= if ut then 2 else 0)%nat.
Proof.
  destruct (post_json auth_srv post_srv now ut s) as [r s'] eqn:E.
  assert (Hb : budget (post_json auth_srv post_srv now ut) 6 (if ut then 2 else 0)).
  { unfold post_json. destruct ut.
    - change 6%nat with ((0 + 0) + 6)%nat. change 2%nat with ((1 + 0) + 1)%nat.
      apply budget_bind; [|intros _; apply (budget_post_loop auth_srv post_srv 5)].
      apply budget_bind; [apply budget_ensure_token|].
      intros _ s0 r0 s0' E0. injection E0 as <- <-. exists [].
      rewrite app_nil_r. split; [|auto].
      destruct (str_truthy (cs_token s0)); reflexivity.
    - eapply budget_mono;
        [apply budget_bind; [apply budget_ret|intros _; apply (budget_post_loop auth_srv post_srv 5)]
        |lia|lia]. }
  exact (Hb s r s' E).
Qed.

(** [_once(with_refresh=True)] drops the cached token before logging in
    again. When that login fails it answers 401 with the "Auth refresh
    failed" body, sends no request, and leaves the client with no token
    and no expiry, so the next [_ensure_token] logs in again whatever the
    clock says. *)
Theorem failed_refresh_clears_token auth_srv post_srv s :
  match auth_srv (count_auth (cs_trace s)) with
  | AuthOk _ _ => True
  | _ =>
      once auth_srv post_srv true s =
        (COk (401, auth_refresh_failed_body),
         mkCState None None (cs_param s) (cs_trace s ++ [EvAuth])) /\
      forall now,
        ensure_token auth_srv now (mkCState None None (cs_param s) (cs_trace s ++ [EvAuth])) =
        auth auth_srv (mkCState None None (cs_param s) (cs_trace s ++ [EvAuth]))
  end.
Proof.
  unfold once, auth. simpl.
  destruct (auth_srv (count_auth (cs_trace s))); [exact I| |];
    (split; [reflexivity|intros now; reflexivity]).
Qed.

(** [check_status] raises [ValueError] when neither id is a non-empty
    string, before any login or request. For a non-empty invoice id, a
    status reply whose [Data] is
    missing or empty yields [{}], and an iteration of the fallback poll
    fed with that [{}] for a receipt that is still open writes nothing,
    sleeps [interval] and polls again. *)
Theorem status_without_data_keeps_polling auth_srv post_srv now
    (inv : string) (rid : option string) (s : cstate) (kv : list (string * json))
    (chk : nat -> option json) (intf : nat -> store -> store)
    (m k : nat) (interval : Z) (st : store) (rs : receipt_status)
    (Hinv : inv <> EmptyString)
    (Hreply : fst (post_json auth_srv post_srv now true s) = COk (JObj kv))
    (Hdata : truthy (obj_get kv "Data") = false)
    (Hchk : chk k = match fst (check_status auth_srv post_srv now (Some inv) rid s) with
                    | COk d => Some d | _ => None end)
    (Hrow : option_bind _ _ (row_status (intf k st)) (get_by_invoice_id (intf k st) (JStr inv))
            = Some rs)
    (Hopen : is_terminal rs = false) :
  (forall o1 o2 s0, str_truthy o1 = false -> str_truthy o2 = false ->
     check_status auth_srv post_srv now o1 o2 s0 = (CExn, s0)) /\
  check_status auth_srv post_srv now (Some inv) rid s
    = (COk (JObj []), snd (post_json auth_srv post_srv now true s)) /\
  poll_loop chk intf (S m) k inv interval st =
    let '(tr, e, st2) := poll_loop chk intf m (S k) inv interval (intf k st) in
    (PCheck :: PSleep interval :: tr, e, st2).
Proof.
  assert (Hcs : check_status auth_srv post_srv now (Some inv) rid s
                = (COk (JObj []), snd (post_json auth_srv post_srv now true s))).
  { assert (Hsd : status_data (JObj kv) = Some (JObj [])).
    { unfold status_data. cbv zeta. rewrite Hdata.
      destruct kv; reflexivity. }
    unfold check_status. cbn [str_truthy].
    apply String.eqb_neq in Hinv. rewrite Hinv. cbn [negb andb].
    unfold cbind.
    destruct (post_json auth_srv post_srv now true s) as [r s'] eqn:Hp.
    cbn [fst] in Hreply. subst r. rewrite Hsd. reflexivity. }
  split; [|split; [exact Hcs|]].
  - intros o1 o2 s0 H1 H2. unfold check_status. rewrite H1, H2. reflexivity.
  - rewrite Hcs in Hchk. cbn [fst] in Hchk.
    cbn [poll_loop]. rewrite Hchk. cbn [poll_extract obj_get fold_left truthy].
    rewrite Hrow, Hopen. reflexivity.
Qed.

Definition ok_auth (_ : nat) : auth_reply := AuthOk (Some "tok") 3600000000.
Definition ok_post (_ : nat) : http_reply := HResp 200 (JObj [("Status", JStr "Success")]).
Definition fresh_client : cstate := mkCState None None None [].
Definition open_row : store :=
  [mkReceipt "pay_1" "pay_1" (Some "r1") 500 "Order pay_1" None None SENT JNull None].

Lemma status_without_data_keeps_polling_witness :
  poll_loop (fun _ => Some (JObj [])) (fun _ st => st) 1 0 "pay_1" 180 open_row
    = ([PCheck; PSleep 180], PEExhausted, open_row).
Proof.
  pose proof (status_without_data_keeps_polling ok_auth ok_post 0 "pay_1" None fresh_client
                [("Status", JStr "Success")] (fun _ => Some (JObj [])) (fun _ st => st)
                0 0 180 open_row SENT) as H.
  destruct H as [_ [_ H]];
    [discriminate|vm_compute; reflexivity|reflexivity|vm_compute; reflexivity
    |vm_compute; reflexivity|reflexivity|].
  rewrite H. reflexivity.
Defined.

(* ------------------------------------------------------------------ *)
(** ** Receipt label *)

(** The label the orchestrator builds from the payment's description: a
    non-empty string description is cut to its first 128 code points (and
    kept whole when it has at most 128); a missing or empty description
    (or [0], [False], [{}], [[]]) gives the order label with the payment id
    cut to 128 code points; a number, [True] or a non-empty dict gives the
    fixed fallback label; a non-empty list stays a list, cut to 128
    elements. Every string result has between 1 and 128 code points. *)
Theorem description_label_cases (pid : list Z) :
  (forall c, c <> [] ->
     description_label (LStr c) pid = LStr (firstn 128 c) /\
     (List.length c <= 128 -> description_label (LStr c) pid = LStr c)%nat) /\
  (forall d, lv_truthy d = false ->
     description_label d pid = LStr (firstn 128 (order_label_prefix ++ pid))) /\
  description_label (LOther true) pid = LStr label_fallback /\
  (forall l, l <> [] -> description_label (LList l) pid = LList (firstn 128 l)) /\
  (forall d t, description_label d pid = LStr t ->
     (1 <= List.length t <= 128)%nat).
Proof.
  assert (Hstr : forall c, c <> [] -> description_label (LStr c) pid = LStr (firstn 128 c)).
  { intros c Hc. unfold description_label, truncate_label.
    destruct c as [|x c]; [congruence|]. reflexivity. }
  assert (Hfalsy : forall d, lv_truthy d = false ->
     description_label d pid = LStr (firstn 128 (order_label_prefix ++ pid))).
  { intros d Hd. unfold description_label. rewrite Hd. reflexivity. }
  split; [|split; [exact Hfalsy|split; [reflexivity|split]]].
  - intros c Hc. split; [exact (Hstr c Hc)|].
    intros Hl. rewrite (Hstr c Hc). rewrite firstn_all2 by lia. reflexivity.
  - intros l Hl. unfold description_label, truncate_label.
    destruct l as [|x l]; [congruence|]. reflexivity.
  - intros d t Ht.
    destruct (lv_truthy d) eqn:Hd.
    + destruct d as [c|l|b]; unfold description_label, truncate_label in Ht;
        rewrite Hd in Ht; cbn [lv_truthy] in Hd.
      * destruct c as [|x c]; [discriminate|].
        unfold py_slice_to in Ht. cbn in Ht. injection Ht as <-.
        cbn [List.length]. rewrite length_firstn. lia.
      * destruct l; cbn in Hd, Ht; discriminate.
      * rewrite Hd in Ht. injection Ht as <-. cbn. lia.
    + rewrite (Hfalsy d Hd) in Ht. injection Ht as <-.
      cbn [List.length]. rewrite length_firstn. lia.
Qed.

(* ------------------------------------------------------------------ *)
(** ** Timezone of the receipts *)

(** [int(v)] on a decoded JSON value; [None] is the exception ([int(None)],
    a list or a dict raise [TypeError], a bad string [ValueError]). *)
Definition py_int_json (v : json) : option Z :=
  match v with
  | JInt z => Some z
  | JBool b => Some (if b then 1 else 0)
  | JStr s => py_int_of_str s
  | _ => None
  end.

(** [FermaConfig.from_settings]: [tz_raw = getattr(s, "FERMA_TIMEZONE", 0)
    or 0], [int(tz_raw)] ([0] on an exception), [None] for [0]. [None] as
    the argument is the missing attribute. *)
Definition cfg_timezone (setting : option json) : option Z :=
  let raw := match setting with
             | Some x => if truthy x then x else JInt 0
             | None => JInt 0
             end in
  let z := match py_int_json raw with Some z => z | None => 0 end in
  if Z.eqb z 0 then None else Some z.

(** [FermaConfig.from_env_or_defaults]: [os.getenv("FERMA_TIMEZONE", "0")],
    [int(tz_raw) if tz_raw else 0], [None] for [0] and on an exception. *)
Definition env_timezone (env : option string) : option Z :=
  let raw := match env with Some s => s | None => "0" end in
  if String.eqb raw EmptyString then None
  else match py_int_of_str raw with
       | Some z => if Z.eqb z 0 then None else Some z
       | None => None
       end.

(** [send_income_correction_receipt]: [tz_val = ov.get("timezone",
    getattr(s, "FERMA_TIMEZONE", 0))], [int(tz_val)] ([0] on an
    exception), kept only when [1 <= tz_int <= 11]. [None] as the argument
    is a missing override and attribute. *)
Definition correction_timezone (tz_val : option json) : option Z :=
  let z := match tz_val with
           | Some x => match py_int_json x with Some z => z | None => 0 end
           | None => 0
           end in
  if Z.leb 1 z && Z.leb z 11 then Some z else None.

(** The income receipt's [Timezone] ([cfg.timezone_num], from
    [from_settings]) is any non-zero integer setting, out of the range
    1..11 too (12, -3); the correction receipt keeps only 1..11: for the
    same value it is the income one filtered to 1..11.
    [from_env_or_defaults] gives the same timezone as [from_settings] for
    the same text. *)
Theorem timezone_income_vs_correction :
  (forall z, z <> 0 -> cfg_timezone (Some (JInt z)) = Some z) /\
  (forall v, correction_timezone v =
     match cfg_timezone v with
     | Some z => if Z.leb 1 z && Z.leb z 11 then Some z else None
     | None => None
     end) /\
  (forall s, env_timezone (Some s) = cfg_timezone (Some (JStr s))) /\
  env_timezone None = cfg_timezone None /\
  cfg_timezone (Some (JInt 12)) = Some 12 /\ correction_timezone (Some (JInt 12)) = None.
Proof.
  split; [|split; [|split; [|split; [reflexivity|split; reflexivity]]]].
  - intros z Hz. unfold cfg_timezone. cbn [truthy].
    destruct (Z.eqb z 0) eqn:E; [apply Z.eqb_eq in E; contradiction|].
    cbn [negb py_int_json]. rewrite E. reflexivity.
  - intros v. unfold correction_timezone, cfg_timezone.
    destruct v as [x|]; [|reflexivity].
    destruct (truthy x) eqn:Ht.
    + destruct (py_int_json x) as [z|]; [|reflexivity].
      destruct (Z.eqb z 0) eqn:E; [|reflexivity].
      apply Z.eqb_eq in E. subst z. reflexivity.
    + destruct x as [|b|z|s|l|kv]; cbn [truthy py_int_json] in *.
      * reflexivity.
      * destruct b; [discriminate|reflexivity].
      * destruct (Z.eqb z 0) eqn:E; [|discriminate].
        apply Z.eqb_eq in E. subst z. reflexivity.
      * destruct (String.eqb s EmptyString) eqn:E; [|discriminate].
        apply String.eqb_eq in E. subst s. reflexivity.
      * reflexivity.
      * reflexivity.
  - intros s. unfold env_timezone, cfg_timezone. cbn [truthy].
    destruct (String.eqb s EmptyString) eqn:E; cbn [negb py_int_json].
    + reflexivity.
    + destruct (py_int_of_str s) as [z|]; reflexivity.
Qed.

(* ------------------------------------------------------------------ *)
(** ** The last [int(s)] of [_as_int_status] *)

Lemma ascii_upper_keeps_classes (c : ascii) :
  py_isspace (ascii_upper c) = py_isspace c /\
  digit_val (ascii_upper c) = digit_val c /\
  Ascii.eqb (ascii_upper c) "_"%char = Ascii.eqb c "_"%char /\
  Ascii.eqb (ascii_upper c) "+"%char = Ascii.eqb c "+"%char /\
  Ascii.eqb (ascii_upper c) "-"%char = Ascii.eqb c "-"%char.
Proof.
  destruct c as [b0 b1 b2 b3 b4 b5 b6 b7].
  destruct b0, b1, b2, b3, b4, b5, b6, b7; vm_compute; repeat split.
Qed.

Lemma lstrip_map_upper (l : list ascii) :
  lstrip_l (map ascii_upper l) = map ascii_upper (lstrip_l l).
Proof.
  induction l as [|c r IH]; [reflexivity|].
  cbn [map lstrip_l]. destruct (ascii_upper_keeps_classes c) as [-> _].
  destruct (py_isspace c); [exact IH|reflexivity].
Qed.

Lemma strip_map_upper (l : list ascii) :
  strip_l (map ascii_upper l) = map ascii_upper (strip_l l).
Proof.
  unfold strip_l. rewrite lstrip_map_upper, <- map_rev, lstrip_map_upper, map_rev.
  reflexivity.
Qed.

Lemma lstrip_length (l : list ascii) : (List.length (lstrip_l l) <= List.length l)%nat.
Proof. induction l as [|c r IH]; cbn; [lia|]. destruct (py_isspace c); cbn; lia. Qed.

Lemma lstrip_suffix (l : list ascii) : exists pre, l = pre ++ lstrip_l l.
Proof.
  induction l as [|c r [pre IH]]; [exists []; reflexivity|].
  cbn. destruct (py_isspace c).
  - exists (c :: pre). cbn. rewrite <- IH. reflexivity.
  - exists []. reflexivity.
Qed.

Lemma lstrip_idem (l : list ascii) : lstrip_l (lstrip_l l) = lstrip_l l.
Proof.
  induction l as [|c r IH]; [reflexivity|].
  cbn. destruct (py_isspace c) eqn:E; [exact IH|]. cbn. rewrite E. reflexivity.
Qed.

Lemma lstrip_fixed_head (l : list ascii) c r :
  lstrip_l l = l -> l = c :: r -> py_isspace c = false.
Proof.
  intros Hf ->. cbn in Hf. destruct (py_isspace c); [|reflexivity].
  pose proof (lstrip_length r) as Hl. rewrite Hf in Hl. cbn in Hl. lia.
Qed.

Lemma strip_idem (l : list ascii) : strip_l (strip_l l) = strip_l l.
Proof.
  unfold strip_l.
  set (y := lstrip_l l).
  assert (Hy : lstrip_l y = y) by apply lstrip_idem.
  destruct (lstrip_suffix (rev y)) as [pre Hpre].
  set (t := lstrip_l (rev y)) in *.
  assert (Ht : lstrip_l (rev t) = rev t).
  { destruct (rev t) as [|c r] eqn:Er; [reflexivity|].
    assert (Hyy : y = c :: r ++ rev pre).
    { rewrite <- (rev_involutive y), Hpre, rev_app_distr, Er. reflexivity. }
    pose proof (lstrip_fixed_head y c (r ++ rev pre) Hy Hyy) as Hc.
    cbn. rewrite Hc. reflexivity. }
  rewrite Ht, rev_involutive. unfold t. rewrite lstrip_idem. reflexivity.
Qed.

Lemma parse_digits_upper (l : list ascii) acc prev :
  parse_digits (map ascii_upper l) acc prev = parse_digits l acc prev.
Proof.
  revert acc prev. induction l as [|c r IH]; intros acc prev; [reflexivity|].
  cbn [map parse_digits].
  destruct (ascii_upper_keeps_classes c) as [_ [-> [-> _]]].
  destruct (digit_val c); [apply IH|].
  destruct (prev && Ascii.eqb c "_"%char); [apply IH|reflexivity].
Qed.

(** [_as_int_status] on a string: the final [int(s)] tried after the
    alias lookup never changes the result. Since [int()] already ignores
    surrounding whitespace and [upper()] turns no non-number into a
    number, a string is a code exactly when [int(s)] accepts it or its
    stripped upper-case form is one of the four aliases (so " confirmed "
    counts as CONFIRMED). *)
Theorem as_int_status_last_int_redundant (s : string) :
  as_int_status (JStr s) =
    match py_int_of_str s with
    | Some z => Some z
    | None => status_alias (py_upper (py_strip s))
    end.
Proof.
  cbn [as_int_status].
  destruct (py_int_of_str s) as [z|] eqn:Hs; [reflexivity|].
  destruct (status_alias (py_upper (py_strip s))) as [z|]; [reflexivity|].
  rewrite <- Hs. unfold py_int_of_str, py_upper, py_strip.
  rewrite !list_ascii_of_string_of_list_ascii.
  rewrite strip_map_upper, strip_idem.
  destruct (strip_l (list_ascii_of_string s)) as [|c r]; [reflexivity|].
  cbn [map]. destruct (ascii_upper_keeps_classes c) as [_ [_ [_ [-> ->]]]].
  rewrite !parse_digits_upper.
  change (ascii_upper c :: map ascii_upper r) with (map ascii_upper (c :: r)).
  rewrite parse_digits_upper. reflexivity.
Qed.

(* ------------------------------------------------------------------ *)
(** ** [mark_sent] then the webhook lookups *)

Lemma find_index_insert_hit p (st : store) i r r' :
  st !! i = Some r -> p r' = true ->
  (forall j x, (j < i)%nat -> st !! j = Some x -> p x = false) ->
  find_index p (<[i := r']> st) = Some i.
Proof.
  revert i. induction st as [|r0 st IH]; intros i Hi Hp Hb; [discriminate|].
  destruct i as [|i]; cbn [find_index list_insert].
  - simpl. rewrite Hp. reflexivity.
  - simpl. rewrite (Hb 0%nat r0) by (reflexivity || lia). cbn in Hi.
    rewrite (IH i Hi Hp); [reflexivity|].
    intros j x Hj Hx. apply (Hb (S j) x); [lia|exact Hx].
Qed.

(** [mark_sent(pr, receipt_id, new_invoice_id)] then the lookups the
    webhook makes: the row is found by its new receipt id (unless an
    earlier row already carries that id), the lookup by payment id is
    unchanged, a [None] or empty new invoice id leaves every lookup by
    invoice id unchanged, and a non-empty one makes the row the answer
    for it (unless an earlier row already has that invoice id). *)
Theorem mark_sent_then_lookup (st : store) i r rid new_inv
    (Hi : st !! i = Some r)
    (Hfirst : forall j x, (j < i)%nat -> st !! j = Some x -> receipt_id x <> Some rid) :
  get_by_receipt_id (mark_sent st i (Some rid) new_inv) (JStr rid) = Some i /\
  (forall pid, get_by_payment_id (mark_sent st i (Some rid) new_inv) pid
               = get_by_payment_id st pid) /\
  ((new_inv = None \/ new_inv = Some EmptyString) ->
     forall inv, get_by_invoice_id (mark_sent st i (Some rid) new_inv) inv
                 = get_by_invoice_id st inv) /\
  (forall x, new_inv = Some x -> x <> EmptyString ->
     (forall j y, (j < i)%nat -> st !! j = Some y -> invoice_id y <> x) ->
     get_by_invoice_id (mark_sent st i (Some rid) new_inv) (JStr x) = Some i).
Proof.
  split; [|split; [|split]].
  - unfold mark_sent. rewrite Hi. unfold get_by_receipt_id, db_bind.
    eapply find_index_insert_hit; [exact Hi| |].
    + cbn. apply String.eqb_refl.
    + intros j x Hj Hx. specialize (Hfirst j x Hj Hx).
      destruct (receipt_id x) as [y|]; [|reflexivity].
      apply String.eqb_neq. congruence.
  - intros pid. apply mark_sent_payment_id.
  - intros Hn inv. unfold mark_sent. rewrite Hi.
    unfold get_by_invoice_id. destruct (db_bind inv) as [[|s]|]; try reflexivity.
    apply (find_index_insert_same _ _ _ _ _ Hi). cbn.
    destruct Hn as [-> | ->]; reflexivity.
  - intros x -> Hx Hb. unfold mark_sent. rewrite Hi.
    apply String.eqb_neq in Hx. rewrite Hx. unfold get_by_invoice_id, db_bind.
    eapply find_index_insert_hit; [exact Hi| |].
    + cbn. apply String.eqb_refl.
    + intros j y Hj Hy. apply String.eqb_neq. exact (Hb j y Hj Hy).
Qed.

Lemma mark_sent_then_lookup_witness :
  get_by_receipt_id (mark_sent open_row 0 (Some "r2") (Some "ferma_7")) (JStr "r2") = Some 0%nat.
Proof.
  refine (proj1 (mark_sent_then_lookup open_row 0 _ "r2" (Some "ferma_7") eq_refl _)).
  intros j x Hj. lia.
Defined.
